(** * UniversalGP: a shallow embedding of the utilities, the logistic
    regression models and the model assembly, with the properties of the
    specification settled against it.

    Sources embedded here:
      - [universalgp/util/util.py]           ([log_cholesky_det], [vec_to_tri])
      - [universalgp/inf/logistic_regression.py]
                                   ([LogReg], [FairLogReg], [EqOddsLogReg])
      - [universalgp/util/train_helper.py]   ([construct_from_flags])

    Numbers.  TensorFlow computes on IEEE floats.  A float is modelled as a
    real number or one of the three special values (plus and minus infinity,
    not-a-number); the special values follow IEEE, finite results are taken
    without rounding, overflow and signed zeros.  Integer data (shapes,
    indices, labels, group codes) are [nat] and [Z] and compute. *)

From Stdlib Require Import Reals Lra Lia List ZArith Bool String.
From stdpp Require Import gmap strings.
Import ListNotations.

Local Open Scope R_scope.

(** ** Python results: a value or a raised exception *)

Module Py.

Inductive exn : Type :=
| NameError (name : string)          (* unbound global or builtin name *)
| KeyError (key : string)            (* [d[key]] on a dict without [key] *)
| AttributeError (attr : string)     (* [getattr(module, attr)] *)
| TypeError (msg : string)           (* an operand of the wrong type *)
| AssertionError                     (* a failed [assert] *)
| ValueError (msg : string)          (* raised while an op is built *)
| InvalidArgument (msg : string).    (* raised by a TensorFlow kernel *)

Inductive result (A : Type) : Type :=
| Ok (a : A)
| Raise (e : exn).
Arguments Ok {A} a.
Arguments Raise {A} e.

Definition bind {A B} (r : result A) (k : A -> result B) : result B :=
  match r with
  | Ok a => k a
  | Raise e => Raise e
  end.

Definition assert (b : bool) : result unit :=
  if b then Ok tt else Raise AssertionError.

(** [[f(x) for x in l]]: elements are evaluated left to right and the
    first exception aborts the comprehension. *)
Fixpoint map_result {A B} (f : A -> result B) (l : list A) : result (list B) :=
  match l with
  | [] => Ok []
  | x :: l' =>
      bind (f x) (fun y => bind (map_result f l') (fun ys => Ok (y :: ys)))
  end.

End Py.
Import Py.

Notation "'let!' x ':=' c1 'in' c2" := (Py.bind c1 (fun x => c2))
  (at level 10, x name, c1 at level 100, c2 at level 200).
Notation "'do!' c1 'in' c2" := (Py.bind c1 (fun _ => c2))
  (at level 10, c1 at level 100, c2 at level 200).

(** ** Floats with their special values *)

Inductive tfloat : Type :=
| Fin (x : R)
| PInf
| NInf
| NaN.

(** A rank-2 tensor: its static second dimension and its rows.  In a
    well-formed tensor every row has [ncols] entries. *)
Record tensor2 : Type := Tensor2 { ncols : nat; rows : list (list tfloat) }.

Definition wf_tensor2 (t : tensor2) : Prop :=
  Forall (fun r => List.length r = ncols t) (rows t).

(** The tensor of shape [(len l, 1)] holding [l] as its only column. *)
Definition column (l : list tfloat) : tensor2 :=
  {| ncols := 1; rows := List.map (fun x => [x]) l |}.

(** The main diagonal of a matrix given by its rows. *)
Definition diagonal (t : tensor2) : list tfloat :=
  List.map (fun i => nth i (nth i (rows t) []) (Fin 0))
    (seq 0 (List.length (rows t))).

Definition square (t : tensor2) : Prop := List.length (rows t) = ncols t.

(** The operations of the [tf] name space that the sources call. *)
Module TF.

Definition is_finite (a : tfloat) : bool :=
  match a with Fin _ => true | _ => false end.

Definition zero : tfloat := Fin 0.

Definition add (a b : tfloat) : tfloat :=
  match a, b with
  | NaN, _ | _, NaN => NaN
  | PInf, NInf | NInf, PInf => NaN
  | PInf, _ | _, PInf => PInf
  | NInf, _ | _, NInf => NInf
  | Fin x, Fin y => Fin (x + y)
  end.

Definition neg (a : tfloat) : tfloat :=
  match a with
  | Fin x => Fin (- x)
  | PInf => NInf
  | NInf => PInf
  | NaN => NaN
  end.

Definition sub (a b : tfloat) : tfloat := add a (neg b).

(** The sign of a real: [Gt] positive, [Eq] zero, [Lt] negative. *)
Definition sign (x : R) : comparison :=
  if Rlt_dec 0 x then Gt else if Rlt_dec x 0 then Lt else Eq.

Definition inf_of (s : comparison) : tfloat :=
  match s with Gt => PInf | Lt => NInf | Eq => NaN end.

Definition mul (a b : tfloat) : tfloat :=
  match a, b with
  | NaN, _ | _, NaN => NaN
  | Fin x, Fin y => Fin (x * y)
  | Fin x, PInf | PInf, Fin x => inf_of (sign x)
  | Fin x, NInf | NInf, Fin x => inf_of (CompOpp (sign x))
  | PInf, PInf | NInf, NInf => PInf
  | PInf, NInf | NInf, PInf => NInf
  end.

(** [tf.exp] *)
Definition exp (a : tfloat) : tfloat :=
  match a with
  | Fin x => Fin (Rtrigo_def.exp x)
  | PInf => PInf
  | NInf => Fin 0
  | NaN => NaN
  end.

(** [tf.log]: minus infinity at zero, not-a-number below zero. *)
Definition log (a : tfloat) : tfloat :=
  match a with
  | Fin x =>
      match sign x with
      | Gt => Fin (ln x)
      | Eq => NInf
      | Lt => NaN
      end
  | PInf => PInf
  | NInf => NaN
  | NaN => NaN
  end.

(** [tf.log1p] *)
Definition log1p (a : tfloat) : tfloat := log (add (Fin 1) a).

(** Elementwise maximum; a not-a-number operand gives not-a-number. *)
Definition max (a b : tfloat) : tfloat :=
  match a, b with
  | NaN, _ | _, NaN => NaN
  | PInf, _ | _, PInf => PInf
  | NInf, c | c, NInf => c
  | Fin x, Fin y => Fin (Rmax x y)
  end.

(** [a >= b] as a kernel evaluates it: false as soon as one side is
    not-a-number. *)
Definition geb (a b : tfloat) : bool :=
  match a, b with
  | NaN, _ | _, NaN => false
  | PInf, _ => true
  | _, NInf => true
  | NInf, _ => false
  | _, PInf => false
  | Fin x, Fin y => if Rle_dec y x then true else false
  end.

(** [tf.reduce_sum] over a rank-1 tensor. *)
Definition reduce_sum (l : list tfloat) : tfloat := fold_left add l zero.

(** [tf.reduce_max] over a rank-1 tensor; minus infinity when empty. *)
Definition reduce_max (l : list tfloat) : tfloat := fold_left max l NInf.

(** Division of a sum by the number of its terms; the empty mean is
    [0/0]. *)
Definition div_count (a : tfloat) (n : nat) : tfloat :=
  match a with
  | Fin x =>
      match n with
      | O => inf_of (sign x)
      | S _ => Fin (x / INR n)
      end
  | c => c
  end.

(** [tf.reduce_mean] over a rank-1 tensor. *)
Definition reduce_mean (l : list tfloat) : tfloat :=
  div_count (reduce_sum l) (List.length l).

(** [tf.reduce_logsumexp] over a rank-1 tensor, as the library computes
    it: the maximum is subtracted before exponentiation when it is
    finite, and zero is subtracted otherwise. *)
Definition reduce_logsumexp (l : list tfloat) : tfloat :=
  let raw_max := reduce_max l in
  let my_max := if is_finite raw_max then raw_max else zero in
  add (log (reduce_sum (List.map (fun x => exp (sub x my_max)) l))) my_max.

(** [tf.nn.softplus] and [tf.math.log_sigmoid] *)
Definition softplus (a : tfloat) : tfloat := log (add (exp a) (Fin 1)).
Definition log_sigmoid (a : tfloat) : tfloat := neg (softplus (neg a)).

(** [tf.nn.sigmoid_cross_entropy_with_logits] on one entry:
    [max(x, 0) - x * z + log(1 + exp(-abs(x)))]. *)
Definition sigmoid_cross_entropy_with_logits (z x : tfloat) : tfloat :=
  let cond := geb x zero in
  let relu_logits := if cond then x else zero in
  let neg_abs_logits := if cond then neg x else x in
  add (sub relu_logits (mul x z)) (log1p (exp neg_abs_logits)).

(** [tf.add_n]: the sum of a list of tensors, here scalars.  The empty
    list is rejected. *)
Definition add_n (l : list tfloat) : result tfloat :=
  match l with
  | [] => Raise (ValueError "inputs must be a list of at least one Tensor")
  | a :: l' => Ok (fold_left add l' a)
  end.

(** [tf.diag_part] of a rank-2 tensor: defined on square matrices. *)
Definition diag_part (t : tensor2) : result (list tfloat) :=
  if (List.length (rows t) =? ncols t)%nat
  then Ok (diagonal t)
  else Raise (InvalidArgument "diag_part: dimensions do not match").

(** [tf.squeeze(t, -1)] of a rank-2 tensor: the last dimension has to
    be 1. *)
Definition squeeze_last (t : tensor2) : result (list tfloat) :=
  if (ncols t =? 1)%nat
  then Ok (List.concat (rows t))
  else Raise (InvalidArgument "Can not squeeze dim[1], expected a dimension of 1").

(** [tf.scatter_nd(indices, updates, shape=[n, m])] with rank-2 indices:
    the output starts as zeros and every update is added at its index.
    The numbers of indices and updates have to agree, and an index out
    of bounds is rejected (as the CPU kernel does). *)
Definition zeros (n m : nat) : list (list tfloat) :=
  replicate n (replicate m zero).

Fixpoint scatter_add (n m : nat) (indices : list (nat * nat))
    (updates : list tfloat) (out : list (list tfloat))
    : result (list (list tfloat)) :=
  match indices, updates with
  | (i, j) :: indices', u :: updates' =>
      if (i <? n)%nat && (j <? m)%nat
      then scatter_add n m indices' updates'
             (alter (alter (fun x => add x u) j) i out)
      else Raise (InvalidArgument "scatter_nd: index out of bounds")
  | _, _ => Ok out
  end.

Definition scatter_nd (indices : list (nat * nat)) (updates : list tfloat)
    (n m : nat) : result (list (list tfloat)) :=
  if (List.length indices =? List.length updates)%nat
  then scatter_add n m indices updates (zeros n m)
  else Raise (InvalidArgument "scatter_nd: indices and updates differ in length").

End TF.

(** The part of [numpy] that [vec_to_tri] calls. *)
Module Np.

(** [np.stack(np.tril_indices(n)).T]: the positions of the lower triangle
    of an [n] by [n] matrix, diagonal included, row by row. *)
Definition tril_indices (n : nat) : list (nat * nat) :=
  flat_map (fun i => List.map (fun j => (i, j)) (seq 0 (S i))) (seq 0 n).

(** [int(np.floor(0.5 * np.sqrt(M * 8. + 1) - 0.5))].  The float square
    root is taken as exact, so that the floor is that of
    [(sqrt (8 M + 1) - 1) / 2]. *)
Definition tri_dim (M : nat) : nat := (Nat.sqrt (8 * M + 1) - 1) / 2.

End Np.

(** ** [universalgp/util/util.py] *)

Module Util.

(** The names bound at the top level of the module: its two imports
    ([import copy], [import tensorflow as tf]) and its functions. *)
Definition module_globals : list string :=
  ["copy"; "tf"; "init_list"; "ceil_divide"; "log_cholesky_det";
   "diag_mul"; "logsumexp"; "mat_square"; "tri_vec_shape"; "vec_to_tri";
   "get_flags"]%string.

(** The builtins that the module refers to. *)
Definition builtins : list string :=
  ["int"; "len"; "range"; "callable"]%string.

(** Reading a name that is not local to the function: the globals of the
    module, then the builtins, else [NameError]. *)
Definition load_name (globals : list string) (name : string) : result unit :=
  if existsb (String.eqb name) (globals ++ builtins)
  then Ok tt
  else Raise (NameError name).

(** The module with [import numpy as np] added to it. *)
Definition globals_with_numpy : list string := "np"%string :: module_globals.

Definition tri_vec_shape (N : nat) : list nat := [(N * (N + 1) / 2)%nat].

Definition log_cholesky_det (chol : tensor2) : result tfloat :=
  let! diag := TF.diag_part chol in
  Ok (TF.mul (Fin 2) (TF.reduce_sum (List.map TF.log diag))).

(** [vec_to_tri], in the module whose global names are [globals].
    [vectors] is the [D x M] tensor of the docstring; the result is the
    [D x N x N] tensor as a list of matrices. *)
Definition vec_to_tri (globals : list string) (vectors : tensor2)
    : result (list (list (list tfloat))) :=
  let M := ncols vectors in
  do! load_name globals "int" in
  do! load_name globals "np" in
  let N := Np.tri_dim M in
  do! Py.assert (N * (N + 1) =? 2 * M)%nat in
  do! load_name globals "tf" in
  do! load_name globals "np" in
  let indices := Np.tril_indices N in
  let vec_to_tri_vector (vector : list tfloat) :=
    TF.scatter_nd indices vector N N in
  Py.map_result vec_to_tri_vector (rows vectors).

End Util.

(** ** [universalgp/inf/logistic_regression.py] *)

Module LogisticRegression.

(** The classes of the module and their base class. *)
Inductive klass : Type := LogReg | FairLogReg | EqOddsLogReg.

(** A tensor of rank 0 or 1, the two ranks a loss can have. *)
Inductive loss_tensor : Type :=
| Scalar (x : tfloat)
| Vector (l : list tfloat).

(** The dictionary that [inference] returns. *)
Record loss_dict : Type := LossDict {
  loss : loss_tensor;
  regr_loss : loss_tensor;
  l2_loss : tfloat
}.

(** [regr_loss + l2_loss], the scalar broadcast over a vector. *)
Definition add_scalar (t : loss_tensor) (c : tfloat) : loss_tensor :=
  match t with
  | Scalar x => Scalar (TF.add x c)
  | Vector l => Vector (List.map (fun x => TF.add x c) l)
  end.

Definition neg_tensor (t : loss_tensor) : loss_tensor :=
  match t with
  | Scalar x => Scalar (TF.neg x)
  | Vector l => Vector (List.map TF.neg l)
  end.

(** The log-domain correction, of shape [(y, s, y')] with [y'] binary:
    the entry at [(y, s)] is the pair for [y' = 0] and [y' = 1]. *)
Definition debias_tensor : Type := list (list (tfloat * tfloat)).

(** [tf.cast(., tf.int32)] on one entry: truncation towards zero; a value
    that is not finite gives the smallest [int32]. *)
Definition cast_int32 (a : tfloat) : Z :=
  match a with
  | Fin x => if Rle_dec 0 x then Int_part x else (- Int_part (- x))%Z
  | _ => (- 2 ^ 31)%Z
  end.

(** [tf.gather_nd(log_debias, tf.stack((out_int, sens_attr), axis=-1))]:
    both index vectors have the same length, and an index out of bounds
    is rejected (as the CPU kernel does). *)
Definition gather_one (log_debias : debias_tensor) (y s : Z)
    : result (tfloat * tfloat) :=
  if ((0 <=? y) && (0 <=? s))%Z then
    match nth_error log_debias (Z.to_nat y) with
    | Some row =>
        match nth_error row (Z.to_nat s) with
        | Some entry => Ok entry
        | None => Raise (InvalidArgument "gather_nd: index out of bounds")
        end
    | None => Raise (InvalidArgument "gather_nd: index out of bounds")
    end
  else Raise (InvalidArgument "gather_nd: index out of bounds").

Definition gather_nd (log_debias : debias_tensor) (out_int sens_attr : list Z)
    : result (list (tfloat * tfloat)) :=
  if (List.length out_int =? List.length sens_attr)%nat
  then Py.map_result (fun ys => gather_one log_debias (fst ys) (snd ys))
         (combine out_int sens_attr)
  else Raise (ValueError "stack: shapes of all inputs must match").

(** [log_debias_per_example + log_lik], both of shape [(batch, 2)]. *)
Definition add_pairs (d : list (tfloat * tfloat)) (l : list (tfloat * tfloat))
    : result (list (list tfloat)) :=
  if (List.length d =? List.length l)%nat
  then Ok (List.map (fun dl => [TF.add (fst (fst dl)) (fst (snd dl));
                                TF.add (snd (fst dl)) (snd (snd dl))])
             (combine d l))
  else Raise (InvalidArgument "Incompatible shapes").

(** [-tf.reduce_mean(tf.squeeze(t), axis=-1)] for [t] of rank 2:
    [tf.squeeze] removes every dimension of size 1, and a reduction over
    the last axis of what is left is not defined for a scalar. *)
Definition squeeze_reduce_mean (t : tensor2) : result loss_tensor :=
  match (List.length (rows t) =? 1)%nat, (ncols t =? 1)%nat with
  | true, true =>
      Raise (InvalidArgument
               "Invalid reduction dimension -1 for input with 0 dimensions")
  | false, false => Ok (Vector (List.map TF.reduce_mean (rows t)))
  | _, _ => Ok (Scalar (TF.reduce_mean (List.concat (rows t))))
  end.

(** [tf.nn.sigmoid_cross_entropy_with_logits(labels, logits)] on rank-2
    tensors: the shapes have to agree. *)
Definition sigmoid_cross_entropy (labels logits : tensor2) : result tensor2 :=
  if (ncols labels =? ncols logits)%nat
     && (List.length (rows labels) =? List.length (rows logits))%nat
  then Ok {| ncols := ncols logits;
             rows := List.map (fun zx =>
                       List.map (fun zx' =>
                         TF.sigmoid_cross_entropy_with_logits (fst zx') (snd zx'))
                         (combine (fst zx) (snd zx)))
                       (combine (rows labels) (rows logits)) |}
  else Raise (ValueError "logits and labels must have the same shape").

Definition neg_tensor2 (t : tensor2) : tensor2 :=
  {| ncols := ncols t; rows := List.map (List.map TF.neg) (rows t) |}.

Section Model.

(** What the module takes from elsewhere: the flags dictionary [args],
    the features dictionary with its entry ['sensitive'], the input
    tensor built from it, and three functions of [inf_vi_ybar]. *)
Variable Args : Type.
Variable Features : Type.
Variable Inputs : Type.
Variable sensitive : Features -> tensor2.
Variable construct_input : Features -> Args -> result Inputs.
Variable debiasing_params_target_rate : Args -> result debias_tensor.
Variable debiasing_params_target_tpr : Args -> result debias_tensor.

(** An instance: its class, [self.args], the dense layer [self._model]
    as a function to the logits of shape [(batch, output_dim)], and
    the regularization losses [self._model.losses] of the layer. *)
Record instance : Type := Instance {
  class_of : klass;
  args : Args;
  _model : Inputs -> result tensor2;
  _model_losses : list tfloat
}.

Definition _l2_loss (self : instance) : result tfloat :=
  TF.add_n (_model_losses self).

Definition _get_inputs (self : instance) (features : Features) : result Inputs :=
  construct_input features (args self).

(** [LogReg.inference] *)
Definition LogReg_inference (self : instance) (features : Features)
    (outputs : tensor2) (is_train : bool) : result loss_dict :=
  let! inputs := _get_inputs self features in
  let! logits := _model self inputs in
  let! xent := sigmoid_cross_entropy outputs logits in
  let log_cond_prob := neg_tensor2 xent in
  let! l2 := _l2_loss self in
  let! mean := squeeze_reduce_mean log_cond_prob in
  let regr := neg_tensor mean in
  Ok {| loss := add_scalar regr l2; regr_loss := regr; l2_loss := l2 |}.

(** [self._log_debiasing_parameters()]: defined by [FairLogReg],
    overridden by [EqOddsLogReg], absent from [LogReg]. *)
Definition _log_debiasing_parameters (self : instance) : result debias_tensor :=
  match class_of self with
  | LogReg => Raise (AttributeError "_log_debiasing_parameters")
  | FairLogReg => debiasing_params_target_rate (args self)
  | EqOddsLogReg => debiasing_params_target_tpr (args self)
  end.

(** [FairLogReg.inference] *)
Definition FairLogReg_inference (self : instance) (features : Features)
    (outputs : tensor2) (is_train : bool) : result loss_dict :=
  if negb is_train then LogReg_inference self features outputs is_train
  else
    let! sens := TF.squeeze_last (sensitive features) in
    let sens_attr := List.map cast_int32 sens in
    let! out := TF.squeeze_last outputs in
    let out_int := List.map cast_int32 out in
    let! inputs := _get_inputs self features in
    let! logits2 := _model self inputs in
    let! logits := TF.squeeze_last logits2 in
    let log_lik1 := List.map TF.log_sigmoid logits in
    let log_lik0 := List.map (fun x => TF.log_sigmoid (TF.neg x)) logits in
    let log_lik := combine log_lik0 log_lik1 in
    let! log_debias := _log_debiasing_parameters self in
    let! log_debias_per_example := gather_nd log_debias out_int sens_attr in
    let! weighted_log_lik := add_pairs log_debias_per_example log_lik in
    let log_cond_prob := List.map TF.reduce_logsumexp weighted_log_lik in
    let regr := TF.neg (TF.reduce_mean log_cond_prob) in
    let! l2 := _l2_loss self in
    Ok {| loss := Scalar (TF.add regr l2);
          regr_loss := Scalar regr;
          l2_loss := l2 |}.

(** [self.inference(...)]: the method found along the base classes of
    the class of [self]. *)
Definition inference (self : instance) : Features -> tensor2 -> bool ->
    result loss_dict :=
  match class_of self with
  | LogReg => LogReg_inference self
  | FairLogReg | EqOddsLogReg => FairLogReg_inference self
  end.

End Model.

Arguments class_of {Args Inputs} _.
Arguments args {Args Inputs} _.
Arguments _model {Args Inputs} _ _.
Arguments _model_losses {Args Inputs} _.
Arguments _l2_loss {Args Inputs} self.
Arguments _get_inputs {Args Features Inputs} construct_input self features.
Arguments LogReg_inference {Args Features Inputs} construct_input
  self features outputs is_train.
Arguments _log_debiasing_parameters {Args Inputs}
  debiasing_params_target_rate debiasing_params_target_tpr self.
Arguments FairLogReg_inference {Args Features Inputs} sensitive construct_input
  debiasing_params_target_rate debiasing_params_target_tpr
  self features outputs is_train.
Arguments inference {Args Features Inputs} sensitive construct_input
  debiasing_params_target_rate debiasing_params_target_tpr self _ _ _.

End LogisticRegression.

(** ** [universalgp/util/train_helper.py] *)

Module TrainHelper.

(** The values a flag can hold. *)
Inductive flag_value : Type :=
| FStr (s : string)
| FInt (z : Z)
| FFloat (x : tfloat)
| FBool (b : bool).

(** [flags[key]] *)
Definition getitem (flags : gmap string flag_value) (key : string)
    : result flag_value :=
  match flags !! key with
  | Some v => Ok v
  | None => Raise (KeyError key)
  end.

(** [getattr(module, name)] on a module given by its attributes. *)
Definition getattr {A} (module : gmap string A) (name : flag_value) : result A :=
  match name with
  | FStr s =>
      match module !! s with
      | Some a => Ok a
      | None => Raise (AttributeError s)
      end
  | _ => Raise (TypeError "getattr(): attribute name must be string")
  end.

(** [sum(ls, [])]: the lists are appended from the left, starting from
    the empty list. *)
Definition sum_lists {A} (ls : list (list A)) : list A :=
  fold_left (fun acc l => acc ++ l) ls [].

Section Assembly.

(** The collaborators: kernels, likelihoods, inference strategies and
    optimizers live in the packages [cov], [lik], [inf] and [tf.train].
    Creating an object may change the state of the process (variables
    are registered in the graph) and may raise. *)
Variables World Kernel Likelihood GP Optimizer Param Inducing : Type.

Definition action (A : Type) : Type := World -> result (A * World).

Definition ret {A} (a : A) : action A := fun w => Ok (a, w).
Definition lift {A} (r : result A) : action A :=
  fun w => let! a := r in Ok (a, w).
Definition then_ {A B} (c : action A) (k : A -> action B) : action B :=
  fun w => let! aw := c w in k (fst aw) (snd aw).

Variable cov : gmap string (nat -> gmap string flag_value -> action Kernel).
Variable lik : gmap string (gmap string flag_value -> action Likelihood).
Variable inf : gmap string (list Kernel -> Likelihood -> nat -> Inducing ->
                            gmap string flag_value -> action GP).
Variable tf_train : gmap string (flag_value -> action Optimizer).
Variable kernel_get_params : Kernel -> list Param.
Variable lik_get_params : Likelihood -> list Param.

(** [[body for _ in range(n)]] *)
Fixpoint comprehension {A} (n : nat) (body : action A) : action (list A) :=
  match n with
  | O => ret []
  | S n' =>
      then_ body (fun x =>
      then_ (comprehension n' body) (fun xs => ret (x :: xs)))
  end.

Definition construct_from_flags (flags : gmap string flag_value)
    (input_dim output_dim : nat) (liklihood_name : string)
    (inducing_inputs : Inducing) (num_train : nat)
    : action (GP * list Param * Optimizer) :=
  then_ (comprehension output_dim
           (then_ (lift (getitem flags "cov")) (fun name =>
            then_ (lift (getattr cov name)) (fun kernel =>
            kernel input_dim flags)))) (fun cov_func =>
  then_ (lift (getattr lik (FStr liklihood_name))) (fun likelihood =>
  then_ (likelihood flags) (fun lik_func =>
  let hyper_params :=
    lik_get_params lik_func
      ++ sum_lists (List.map kernel_get_params cov_func) in
  then_ (lift (getitem flags "inf")) (fun inf_name =>
  then_ (lift (getattr inf inf_name)) (fun strategy =>
  then_ (strategy cov_func lik_func num_train inducing_inputs flags) (fun gp =>
  then_ (lift (getitem flags "optimizer")) (fun opt_name =>
  then_ (lift (getattr tf_train opt_name)) (fun optimizer =>
  then_ (lift (getitem flags "lr")) (fun lr =>
  then_ (optimizer lr) (fun opt =>
  ret (gp, hyper_params, opt))))))))))).

End Assembly.

Arguments action World A : clear implicits.
Arguments ret {World A} a _.
Arguments lift {World A} r _.
Arguments then_ {World A B} c k _.
Arguments comprehension {World A} n body _.
Arguments construct_from_flags {World Kernel Likelihood GP Optimizer Param Inducing}
  cov lik inf tf_train kernel_get_params lik_get_params
  flags input_dim output_dim liklihood_name inducing_inputs num_train _.

End TrainHelper.

(** * Properties *)

(** ** Arithmetic of the float model *)

Definition Rsum (l : list R) : R := fold_right Rplus 0 l.

Section FloatFacts.

Lemma sign_pos (x : R) : 0 < x -> TF.sign x = Gt.
Proof.
  intros Hx. unfold TF.sign.
  destruct (Rlt_dec 0 x) as [_ | Hn]; [reflexivity | contradiction].
Qed.

Lemma sign_neg (x : R) : x < 0 -> TF.sign x = Lt.
Proof.
  intros Hx. unfold TF.sign.
  destruct (Rlt_dec 0 x) as [Hp | _]; [lra |].
  destruct (Rlt_dec x 0) as [_ | Hn]; [reflexivity | contradiction].
Qed.

Lemma sign_zero : TF.sign 0 = Eq.
Proof.
  unfold TF.sign.
  destruct (Rlt_dec 0 0) as [Hp | _]; [lra |].
  destruct (Rlt_dec 0 0) as [Hp | _]; [lra | reflexivity].
Qed.

Lemma log_Fin_pos (x : R) : 0 < x -> TF.log (Fin x) = Fin (ln x).
Proof. intros Hx. simpl. now rewrite sign_pos. Qed.

Lemma log_Fin_neg (x : R) : x < 0 -> TF.log (Fin x) = NaN.
Proof. intros Hx. simpl. now rewrite sign_neg. Qed.

Lemma log_Fin_zero : TF.log (Fin 0) = NInf.
Proof. simpl. now rewrite sign_zero. Qed.

Lemma add_zero_l (a : tfloat) : TF.add TF.zero a = a.
Proof. destruct a; simpl; try reflexivity. f_equal. lra. Qed.

Lemma add_comm (a b : tfloat) : TF.add a b = TF.add b a.
Proof. destruct a, b; simpl; try reflexivity. f_equal. lra. Qed.

Lemma fold_add_Fin (l : list R) (a : R) :
  fold_left TF.add (List.map Fin l) (Fin a) = Fin (a + Rsum l).
Proof.
  revert a. induction l as [| x l IH]; intros a; simpl.
  - f_equal. lra.
  - rewrite IH. f_equal. lra.
Qed.

Lemma reduce_sum_Fin (l : list R) :
  TF.reduce_sum (List.map Fin l) = Fin (Rsum l).
Proof. unfold TF.reduce_sum, TF.zero. rewrite fold_add_Fin. f_equal. lra. Qed.

Lemma fold_add_NaN (l : list tfloat) : fold_left TF.add l NaN = NaN.
Proof. induction l as [| x l IH]; simpl; [reflexivity | exact IH]. Qed.

Lemma fold_add_has_NaN (l : list tfloat) (a : tfloat) :
  In NaN l -> fold_left TF.add l a = NaN.
Proof.
  revert a. induction l as [| x l IH]; intros a Hin; simpl in *.
  - contradiction.
  - destruct Hin as [-> | Hin].
    + replace (TF.add a NaN) with NaN by (now destruct a).
      apply fold_add_NaN.
    + now apply IH.
Qed.

(** No term is plus infinity or not-a-number. *)
Definition below (a : tfloat) : Prop :=
  match a with Fin _ | NInf => True | _ => False end.

Lemma fold_add_NInf (l : list tfloat) :
  Forall below l -> fold_left TF.add l NInf = NInf.
Proof.
  induction 1 as [| x l Hx _ IH]; simpl; [reflexivity |].
  destruct x; simpl in *; try contradiction; exact IH.
Qed.

Lemma fold_add_has_NInf (l : list tfloat) (a : tfloat) :
  Forall below l -> below a -> In NInf l -> fold_left TF.add l a = NInf.
Proof.
  intros Hl. revert a. induction Hl as [| x l Hx Hl IH]; intros a Ha Hin;
    simpl in *; [contradiction |].
  destruct Hin as [-> | Hin].
  - replace (TF.add a NInf) with NInf by (now destruct a).
    now apply fold_add_NInf.
  - apply IH; [| exact Hin].
    destruct a, x; simpl in *; try contradiction; exact I.
Qed.

Lemma exp_plus_one_pos (x : R) : 0 < Rtrigo_def.exp x + 1.
Proof. pose proof (exp_pos x). lra. Qed.

Lemma one_plus_exp_pos (x : R) : 0 < 1 + Rtrigo_def.exp x.
Proof. pose proof (exp_pos x). lra. Qed.

(** [softplus x = x + softplus (- x)] *)
Lemma softplus_shift (x : R) :
  ln (Rtrigo_def.exp x + 1) = x + ln (1 + Rtrigo_def.exp (- x)).
Proof.
  replace (Rtrigo_def.exp x + 1)
    with (Rtrigo_def.exp x * (1 + Rtrigo_def.exp (- x))).
  - rewrite ln_mult by (apply exp_pos || apply one_plus_exp_pos).
    now rewrite ln_exp.
  - rewrite Rmult_plus_distr_l, <- exp_plus.
    replace (x + - x) with 0 by lra. rewrite exp_0. lra.
Qed.

(** The two class probabilities of the logistic model add up to one. *)
Lemma sigmoid_sum (x : R) :
  Rtrigo_def.exp (- ln (Rtrigo_def.exp x + 1))
  + Rtrigo_def.exp (- ln (Rtrigo_def.exp (- x) + 1)) = 1.
Proof.
  rewrite (exp_Ropp (ln _)), (exp_Ropp (ln _)).
  rewrite !exp_ln by apply exp_plus_one_pos.
  rewrite exp_Ropp.
  pose proof (exp_pos x) as He.
  set (e := Rtrigo_def.exp x) in *.
  field. split; lra.
Qed.

(** Shifting by any [m] does not change the logarithm of a sum of two
    exponentials. *)
Lemma logsumexp_shift (a b m : R) :
  m + ln (Rtrigo_def.exp (a + - m) + Rtrigo_def.exp (b + - m))
  = ln (Rtrigo_def.exp a + Rtrigo_def.exp b).
Proof.
  rewrite !exp_plus, <- Rmult_plus_distr_r.
  pose proof (exp_pos a). pose proof (exp_pos b).
  rewrite ln_mult by (lra || apply exp_pos).
  rewrite ln_exp. lra.
Qed.

Lemma log_sigmoid_Fin (x : R) :
  TF.log_sigmoid (Fin x) = Fin (- ln (Rtrigo_def.exp (- x) + 1)).
Proof.
  unfold TF.log_sigmoid, TF.softplus. cbn [TF.neg TF.exp TF.add].
  now rewrite log_Fin_pos by apply exp_plus_one_pos.
Qed.

Lemma log_sigmoid_neg_Fin (x : R) :
  TF.log_sigmoid (TF.neg (Fin x)) = Fin (- ln (Rtrigo_def.exp x + 1)).
Proof.
  cbn [TF.neg]. rewrite log_sigmoid_Fin. now rewrite Ropp_involutive.
Qed.

(** The entry of the cross entropy at a finite logit and a finite label is
    minus the log-likelihood of the label when the label is 0 or 1. *)
Lemma cross_entropy_label_1 (x : R) :
  TF.neg (TF.sigmoid_cross_entropy_with_logits (Fin 1) (Fin x))
  = TF.log_sigmoid (Fin x).
Proof.
  rewrite log_sigmoid_Fin. unfold TF.sigmoid_cross_entropy_with_logits, TF.log1p.
  unfold TF.zero. cbn [TF.geb]. destruct (Rle_dec 0 x) as [Hx | Hx];
    cbn [TF.neg TF.exp TF.add TF.sub TF.mul];
    rewrite log_Fin_pos by apply one_plus_exp_pos; cbn [TF.add TF.neg]; f_equal.
  - rewrite (Rplus_comm (Rtrigo_def.exp (- x)) 1). lra.
  - rewrite (softplus_shift (- x)), (Ropp_involutive x). lra.
Qed.

Lemma cross_entropy_label_0 (x : R) :
  TF.neg (TF.sigmoid_cross_entropy_with_logits (Fin 0) (Fin x))
  = TF.log_sigmoid (TF.neg (Fin x)).
Proof.
  rewrite log_sigmoid_neg_Fin. unfold TF.sigmoid_cross_entropy_with_logits, TF.log1p.
  unfold TF.zero. cbn [TF.geb]. destruct (Rle_dec 0 x) as [Hx | Hx];
    cbn [TF.neg TF.exp TF.add TF.sub TF.mul];
    rewrite log_Fin_pos by apply one_plus_exp_pos; cbn [TF.add TF.neg]; f_equal.
  - rewrite (softplus_shift x). lra.
  - rewrite (Rplus_comm (Rtrigo_def.exp x) 1). lra.
Qed.

End FloatFacts.

(** ** [log_cholesky_det] *)

Section LogCholeskyDet.

(** On a square matrix the function does not raise: it is the doubled
    sum of the logarithms of the diagonal, whatever the diagonal holds. *)
Lemma log_cholesky_det_square (chol : tensor2) :
  square chol ->
  Util.log_cholesky_det chol
  = Ok (TF.mul (Fin 2) (TF.reduce_sum (List.map TF.log (diagonal chol)))).
Proof.
  intros Hsq. unfold Util.log_cholesky_det, TF.diag_part.
  red in Hsq. rewrite Hsq, Nat.eqb_refl. reflexivity.
Qed.

Lemma map_log_positive (d : list R) :
  Forall (fun x => 0 < x) d ->
  List.map TF.log (List.map Fin d) = List.map Fin (List.map ln d).
Proof.
  induction 1 as [| x d Hx _ IH]; simpl; [reflexivity |].
  rewrite sign_pos by exact Hx. f_equal. exact IH.
Qed.

(** C6.  For a square factor whose diagonal entries are the strictly
    positive reals [d], [log_cholesky_det] returns twice the sum of the
    logarithms of [d]. *)
Theorem log_cholesky_det_positive_diagonal (chol : tensor2) (d : list R) :
  square chol ->
  diagonal chol = List.map Fin d ->
  Forall (fun x => 0 < x) d ->
  Util.log_cholesky_det chol = Ok (Fin (2 * Rsum (List.map ln d))).
Proof.
  intros Hsq Hd Hpos.
  rewrite (log_cholesky_det_square chol Hsq), Hd.
  rewrite (map_log_positive d Hpos), reduce_sum_Fin.
  reflexivity.
Qed.

Definition chol_2x2 : tensor2 :=
  {| ncols := 2; rows := [[Fin 2; Fin 0]; [Fin 1; Fin 3]] |}.

Lemma log_cholesky_det_positive_diagonal_witness :
  Util.log_cholesky_det chol_2x2 = Ok (Fin (2 * Rsum (List.map ln [2; 3]))).
Proof.
  apply (log_cholesky_det_positive_diagonal chol_2x2 [2; 3]).
  - reflexivity.
  - reflexivity.
  - repeat constructor; lra.
Defined.

Lemma sign_two : TF.sign 2 = Gt.
Proof. apply sign_pos. lra. Qed.

Lemma logs_have_NaN (d : list R) :
  Exists (fun x => x < 0) d -> In NaN (List.map TF.log (List.map Fin d)).
Proof.
  induction 1 as [x d Hx | x d _ IH].
  - left. now apply log_Fin_neg.
  - right. exact IH.
Qed.

Lemma logs_below (d : list R) :
  Forall (fun x => 0 <= x) d ->
  Forall below (List.map TF.log (List.map Fin d)).
Proof.
  induction 1 as [| x d Hx _ IH]; constructor; [| exact IH].
  destruct Hx as [Hx | <-].
  - now rewrite log_Fin_pos.
  - now rewrite log_Fin_zero.
Qed.

Lemma logs_have_NInf (d : list R) :
  Forall (fun x => 0 <= x) d -> Exists (fun x => x <= 0) d ->
  In NInf (List.map TF.log (List.map Fin d)).
Proof.
  intros Hall Hex. induction Hex as [x d Hx | x d _ IH].
  - left. apply Forall_inv in Hall.
    replace x with 0 by lra. apply log_Fin_zero.
  - right. apply IH. now apply Forall_inv_tail in Hall.
Qed.

(** The claim of C7 fails at the one by one matrix [[-1]]: the call does
    not raise, it returns not-a-number. *)
Lemma log_cholesky_det_minus_one_returns_NaN :
  let chol := {| ncols := 1; rows := [[Fin (-1)]] |} in
  square chol /\ diagonal chol = [Fin (-1)] /\ -1 <= 0
  /\ Util.log_cholesky_det chol = Ok NaN.
Proof.
  simpl. repeat split; try reflexivity; try lra.
  unfold Util.log_cholesky_det. simpl.
  rewrite sign_neg by lra. reflexivity.
Qed.

(** C7, amended.  On a square factor with a finite diagonal [d] that has a
    non-positive entry, [log_cholesky_det] does not raise: it returns
    not-a-number when some entry of [d] is negative, and minus infinity
    when none is negative (so that some entry is zero). *)
Theorem log_cholesky_det_nonpositive_diagonal (chol : tensor2) (d : list R) :
  square chol ->
  diagonal chol = List.map Fin d ->
  Exists (fun x => x <= 0) d ->
  (Exists (fun x => x < 0) d -> Util.log_cholesky_det chol = Ok NaN)
  /\ (Forall (fun x => 0 <= x) d -> Util.log_cholesky_det chol = Ok NInf).
Proof.
  intros Hsq Hd Hex.
  rewrite (log_cholesky_det_square chol Hsq), Hd. split.
  - intros Hneg. unfold TF.reduce_sum.
    rewrite (fold_add_has_NaN _ _ (logs_have_NaN d Hneg)). reflexivity.
  - intros Hall. unfold TF.reduce_sum.
    rewrite (fold_add_has_NInf _ TF.zero (logs_below d Hall) I
               (logs_have_NInf d Hall Hex)).
    simpl. rewrite sign_two. reflexivity.
Qed.

Lemma log_cholesky_det_nonpositive_diagonal_witness :
  Util.log_cholesky_det {| ncols := 2; rows := [[Fin 0; Fin 0]; [Fin 1; Fin 3]] |}
  = Ok NInf.
Proof.
  apply (log_cholesky_det_nonpositive_diagonal
           {| ncols := 2; rows := [[Fin 0; Fin 0]; [Fin 1; Fin 3]] |} [0; 3]).
  - reflexivity.
  - reflexivity.
  - left. lra.
  - repeat constructor; lra.
Defined.

End LogCholeskyDet.

(** ** [vec_to_tri] *)

Section VecToTri.

Local Open Scope nat_scope.

Lemma load_name_unbound (globals : list string) (name : string) :
  existsb (String.eqb name) (globals ++ Util.builtins) = false ->
  Util.load_name globals name = Raise (NameError name).
Proof. intros H. unfold Util.load_name. now rewrite H. Qed.

Lemma np_unbound_in_module :
  existsb (String.eqb "np") (Util.module_globals ++ Util.builtins) = false.
Proof. reflexivity. Qed.

(** C5.  In the module as it is written, every call of [vec_to_tri] on a
    [D x M] tensor raises [NameError] for the name [np]: the name is
    neither imported by the module nor a builtin. *)
Theorem vec_to_tri_raises_NameError (vectors : tensor2) :
  Util.vec_to_tri Util.module_globals vectors = Raise (NameError "np").
Proof.
  unfold Util.vec_to_tri.
  rewrite (load_name_unbound _ "np" np_unbound_in_module).
  reflexivity.
Qed.

(** *** The module with [numpy] imported *)

(** The number of entries of the lower triangle of an [n] by [n] matrix. *)
Definition tri (n : nat) : nat := n * (n + 1) / 2.

(** The entry of a matrix at row [i] and column [j], when there is one. *)
Definition entry (t : list (list tfloat)) (i j : nat) : option tfloat :=
  match t !! i with
  | Some r => r !! j
  | None => None
  end.

(** Modelled from the spec: [triangleToVector], the inverse mapping, which
    [util.py] does not define.  It extracts the lower-triangle entries of
    an [n] by [n] matrix in row-major order. *)
Definition tri_to_vec (n : nat) (t : list (list tfloat)) : list tfloat :=
  List.map (fun ij => nth (snd ij) (nth (fst ij) t []) (Fin 0))
    (Np.tril_indices n).

(** [t] is the [n] by [n] matrix whose lower triangle holds [v] row by row
    and whose strict upper triangle is zero. *)
Definition lower_fill (n : nat) (v : list tfloat) (t : list (list tfloat)) : Prop :=
  List.length t = n
  /\ Forall (fun r => List.length r = n) t
  /\ (forall i j, j <= i < n -> entry t i j = v !! (tri i + j))
  /\ (forall i j, i < j < n -> entry t i j = Some (Fin 0)).

Lemma tri_S (n : nat) : tri (S n) = tri n + S n.
Proof.
  unfold tri.
  replace (S n * (S n + 1)) with (n * (n + 1) + S n * 2) by lia.
  now rewrite Nat.div_add by lia.
Qed.

Lemma tri_double (n : nat) : 2 * tri n = n * (n + 1).
Proof.
  induction n as [| n IH]; [reflexivity |].
  rewrite tri_S. lia.
Qed.

Lemma tri_mono (i n : nat) : i <= n -> tri i <= tri n.
Proof.
  induction 1 as [| n _ IH]; [lia |]. rewrite tri_S. lia.
Qed.

Lemma tri_dim_tri (n : nat) : Np.tri_dim (tri n) = n.
Proof.
  unfold Np.tri_dim.
  replace (8 * tri n + 1) with ((2 * n + 1) * (2 * n + 1))
    by (pose proof (tri_double n); nia).
  rewrite Nat.sqrt_square.
  replace (2 * n + 1 - 1) with (n * 2) by lia.
  now rewrite Nat.div_mul by lia.
Qed.

Lemma flat_map_seq_S {A} (f : nat -> list A) (n : nat) :
  flat_map f (seq 0 (S n)) = flat_map f (seq 0 n) ++ f n.
Proof.
  rewrite seq_S, flat_map_app. simpl. now rewrite app_nil_r.
Qed.

Lemma tril_indices_S (n : nat) :
  Np.tril_indices (S n)
  = Np.tril_indices n ++ List.map (fun j => (n, j)) (seq 0 (S n)).
Proof. unfold Np.tril_indices. now rewrite flat_map_seq_S. Qed.

Lemma length_tril_indices (n : nat) : List.length (Np.tril_indices n) = tri n.
Proof.
  induction n as [| n IH]; [reflexivity |].
  rewrite tril_indices_S, length_app, length_map, length_seq, IH, tri_S.
  reflexivity.
Qed.

Lemma tril_indices_elem (n i j : nat) :
  (i, j) ∈ Np.tril_indices n <-> j <= i < n.
Proof.
  unfold Np.tril_indices. rewrite list_elem_of_In, in_flat_map. split.
  - intros (i' & Hi' & Hin). apply in_map_iff in Hin.
    destruct Hin as (j' & Heq & Hj'). inversion Heq; subst.
    apply in_seq in Hi', Hj'. lia.
  - intros H. exists i. split; [apply in_seq; lia |].
    apply in_map_iff. exists j. split; [reflexivity | apply in_seq; lia].
Qed.

Lemma tril_indices_lookup (n i j : nat) :
  j <= i < n -> Np.tril_indices n !! (tri i + j) = Some (i, j).
Proof.
  induction n as [| n IH]; intros H; [lia |].
  rewrite tril_indices_S.
  destruct (decide (i = n)) as [-> | Hne].
  - rewrite lookup_app_r by (rewrite length_tril_indices; lia).
    rewrite length_tril_indices.
    replace (tri n + j - tri n) with j by lia.
    rewrite list_lookup_fmap.
    replace (seq 0 (S n) !! j) with (Some j); [reflexivity |].
    symmetry. apply lookup_seq. lia.
  - rewrite lookup_app_l.
    + apply IH. lia.
    + rewrite length_tril_indices.
      pose proof (tri_mono (S i) n ltac:(lia)) as Hm.
      rewrite tri_S in Hm. lia.
Qed.

Lemma NoDup_tril_indices (n : nat) : NoDup (Np.tril_indices n).
Proof.
  induction n as [| n IH]; [constructor |].
  rewrite tril_indices_S. apply NoDup_app. split; [exact IH |]. split.
  - intros [i j] Hin Hin'. apply tril_indices_elem in Hin.
    apply list_elem_of_In, in_map_iff in Hin'.
    destruct Hin' as (j' & Heq & _). inversion Heq; subst. lia.
  - apply NoDup_fmap_2; [| apply NoDup_seq].
    intros a b Heq. now inversion Heq.
Qed.

(** One step of [scatter_nd]: the update [u] is added at [(i, j)]. *)
Definition bump (u : tfloat) (i j : nat) (out : list (list tfloat))
    : list (list tfloat) :=
  alter (alter (fun x => TF.add x u) j) i out.

Lemma entry_bump_eq (u : tfloat) (i j : nat) (out : list (list tfloat)) :
  entry (bump u i j out) i j = (fun x => TF.add x u) <$> entry out i j.
Proof.
  unfold entry, bump. rewrite list_lookup_alter_eq.
  destruct (out !! i) as [r |]; simpl; [| reflexivity].
  apply list_lookup_alter_eq.
Qed.

Lemma entry_bump_ne (u : tfloat) (i j i' j' : nat) (out : list (list tfloat)) :
  (i, j) <> (i', j') -> entry (bump u i j out) i' j' = entry out i' j'.
Proof.
  intros Hne. unfold entry, bump.
  destruct (decide (i = i')) as [-> | Hi].
  - rewrite list_lookup_alter_eq.
    destruct (out !! i') as [r |]; simpl; [| reflexivity].
    apply list_lookup_alter_ne. congruence.
  - now rewrite list_lookup_alter_ne.
Qed.

Lemma shape_bump (u : tfloat) (i j : nat) (out : list (list tfloat)) :
  List.map (@List.length tfloat) (bump u i j out)
  = List.map (@List.length tfloat) out.
Proof.
  unfold bump. revert i. induction out as [| r out IH]; intros [| i]; simpl;
    try reflexivity.
  - now rewrite length_alter.
  - f_equal. apply IH.
Qed.

(** With distinct indices inside the bounds, [scatter_add] returns a tensor
    of the same shape in which every update has been added at its index
    and every other entry is unchanged. *)
Lemma scatter_add_spec (n m : nat) (indices : list (nat * nat)) :
  forall (updates : list tfloat) (out : list (list tfloat)),
  Forall (fun ij => fst ij < n /\ snd ij < m) indices ->
  NoDup indices ->
  List.length indices = List.length updates ->
  exists out',
    TF.scatter_add n m indices updates out = Ok out'
    /\ List.map (@List.length tfloat) out' = List.map (@List.length tfloat) out
    /\ (forall k i j u,
          indices !! k = Some (i, j) -> updates !! k = Some u ->
          entry out' i j = (fun x => TF.add x u) <$> entry out i j)
    /\ (forall i j, (i, j) ∉ indices -> entry out' i j = entry out i j).
Proof.
  induction indices as [| [i0 j0] indices IH]; intros updates out Hb Hnd Hlen.
  - exists out. repeat split; try reflexivity. intros k i j u Hk. discriminate.
  - destruct updates as [| u0 updates]; [discriminate |].
    apply Forall_cons in Hb. destruct Hb as [[Hi0 Hj0] Hb]. simpl in Hi0, Hj0.
    apply NoDup_cons in Hnd. destruct Hnd as [Hnotin Hnd].
    simpl in Hlen. injection Hlen as Hlen.
    destruct (IH updates (bump u0 i0 j0 out) Hb Hnd Hlen)
      as (out' & Hrun & Hshape & Hin & Hout).
    exists out'. simpl.
    rewrite (proj2 (Nat.ltb_lt i0 n) Hi0), (proj2 (Nat.ltb_lt j0 m) Hj0).
    split; [exact Hrun |]. split; [now rewrite Hshape, shape_bump |]. split.
    + intros [| k] i j u Hk Hu; simpl in Hk, Hu.
      * injection Hk as <- <-. injection Hu as <-.
        rewrite (Hout i0 j0 Hnotin). apply entry_bump_eq.
      * rewrite (Hin k i j u Hk Hu). rewrite entry_bump_ne; [reflexivity |].
        intros Heq. injection Heq as <- <-.
        apply Hnotin. eapply list_elem_of_lookup_2. exact Hk.
    + intros i j Hnot. apply not_elem_of_cons in Hnot. destruct Hnot as [Hne Hnot].
      rewrite (Hout i j Hnot). apply entry_bump_ne. congruence.
Qed.

Lemma entry_zeros (n m i j : nat) :
  i < n -> j < m -> entry (TF.zeros n m) i j = Some (Fin 0).
Proof.
  intros Hi Hj. unfold entry, TF.zeros.
  rewrite lookup_replicate_2 by exact Hi.
  now apply lookup_replicate_2.
Qed.

Lemma shape_zeros (n m : nat) :
  List.map (@List.length tfloat) (TF.zeros n m) = replicate n m.
Proof.
  unfold TF.zeros. induction n as [| n IH]; simpl; [reflexivity |].
  now rewrite length_replicate, IH.
Qed.

Lemma tri_position_lt (n i j : nat) : j <= i < n -> tri i + j < tri n.
Proof.
  intros H. pose proof (tri_mono (S i) n ltac:(lia)) as Hm.
  rewrite tri_S in Hm. lia.
Qed.

(** [scatter_nd] at the lower-triangle indices fills the lower triangle
    with the vector, row by row, and leaves zeros above the diagonal. *)
Lemma scatter_nd_tril_indices (n : nat) (v : list tfloat) :
  List.length v = tri n ->
  exists t, TF.scatter_nd (Np.tril_indices n) v n n = Ok t /\ lower_fill n v t.
Proof.
  intros Hlen. unfold TF.scatter_nd.
  rewrite length_tril_indices, Hlen, Nat.eqb_refl.
  destruct (scatter_add_spec n n (Np.tril_indices n) v (TF.zeros n n))
    as (t & Hrun & Hshape & Hin & Hout).
  - apply List.Forall_forall. intros [i j] Hij.
    rewrite <- list_elem_of_In, tril_indices_elem in Hij. simpl. lia.
  - apply NoDup_tril_indices.
  - now rewrite length_tril_indices.
  - exists t. split; [exact Hrun |].
    rewrite shape_zeros in Hshape. repeat split.
    + rewrite <- (length_map (@List.length tfloat) t), Hshape.
      apply length_replicate.
    + apply List.Forall_forall. intros r Hr.
      assert (Hmem : In (List.length r) (List.map (@List.length tfloat) t))
        by (now apply in_map).
      rewrite Hshape, <- list_elem_of_In, elem_of_replicate in Hmem.
      tauto.
    + intros i j Hij.
      pose proof (tri_position_lt n i j Hij) as Hk.
      destruct (lookup_lt_is_Some_2 v (tri i + j) ltac:(lia)) as [u Hu].
      rewrite (Hin _ i j u (tril_indices_lookup n i j Hij) Hu).
      rewrite entry_zeros by lia. rewrite Hu. simpl. f_equal.
      apply add_zero_l.
    + intros i j Hij. rewrite Hout; [apply entry_zeros; lia |].
      rewrite tril_indices_elem. lia.
Qed.

Lemma map_result_Forall2 {A B} (f : A -> result B) (P : A -> B -> Prop)
    (l : list A) :
  (forall x, In x l -> exists y, f x = Ok y /\ P x y) ->
  exists ys, Py.map_result f l = Ok ys /\ Forall2 P l ys.
Proof.
  induction l as [| x l IH]; intros H.
  - exists []. split; [reflexivity | constructor].
  - destruct (H x (or_introl eq_refl)) as (y & Hy & HP).
    destruct IH as (ys & Hys & HF); [intros z Hz; apply H; now right |].
    exists (y :: ys). simpl. rewrite Hy. simpl. rewrite Hys. simpl.
    split; [reflexivity | now constructor].
Qed.

(** With [np] bound to [numpy], a well-formed [D x M] tensor with
    [M = N (N + 1) / 2] is mapped to [D] matrices, the matrix of each row
    being its lower-triangle filling. *)
Lemma vec_to_tri_with_numpy_fills (vectors : tensor2) (n : nat) :
  ncols vectors = tri n ->
  wf_tensor2 vectors ->
  exists mats,
    Util.vec_to_tri Util.globals_with_numpy vectors = Ok mats
    /\ Forall2 (lower_fill n) (rows vectors) mats.
Proof.
  intros HM Hwf. unfold Util.vec_to_tri.
  change (Util.load_name Util.globals_with_numpy "int") with (Ok tt).
  change (Util.load_name Util.globals_with_numpy "np") with (Ok tt).
  change (Util.load_name Util.globals_with_numpy "tf") with (Ok tt).
  cbn [Py.bind]. rewrite HM, tri_dim_tri.
  rewrite (proj2 (Nat.eqb_eq _ _)) by (now rewrite tri_double).
  cbn [Py.assert Py.bind].
  apply map_result_Forall2. intros v Hv.
  apply scatter_nd_tril_indices.
  red in Hwf. rewrite List.Forall_forall in Hwf. rewrite (Hwf v Hv). exact HM.
Qed.

(** With [np] bound to [numpy], a second dimension that is not a
    triangular number is refused by the assertion. *)
Lemma vec_to_tri_with_numpy_asserts (vectors : tensor2) :
  (forall n, ncols vectors <> tri n) ->
  Util.vec_to_tri Util.globals_with_numpy vectors = Raise AssertionError.
Proof.
  intros HM. unfold Util.vec_to_tri.
  change (Util.load_name Util.globals_with_numpy "int") with (Ok tt).
  change (Util.load_name Util.globals_with_numpy "np") with (Ok tt).
  cbn [Py.bind].
  destruct (Nat.eqb_spec (Np.tri_dim (ncols vectors) * (Np.tri_dim (ncols vectors) + 1))
              (2 * ncols vectors)) as [Heq | Hne]; [| reflexivity].
  exfalso. apply (HM (Np.tri_dim (ncols vectors))).
  pose proof (tri_double (Np.tri_dim (ncols vectors))). lia.
Qed.

(** Reading the lower triangle of a lower-triangle filling of [v] gives
    [v] back. *)
Lemma tri_to_vec_lower_fill (n : nat) (v : list tfloat) (t : list (list tfloat)) :
  List.length v = tri n -> lower_fill n v t -> tri_to_vec n t = v.
Proof.
  intros Hlen (_ & _ & Hlow & _). apply list_eq. intros k.
  unfold tri_to_vec. rewrite list_lookup_fmap.
  destruct (Np.tril_indices n !! k) as [[i j] |] eqn:Hk; simpl.
  - assert (Hij : j <= i < n)
      by (apply tril_indices_elem; eapply list_elem_of_lookup_2; exact Hk).
    assert (k = tri i + j) as ->
      by (eapply NoDup_lookup;
          [apply NoDup_tril_indices | exact Hk | now apply tril_indices_lookup]).
    specialize (Hlow i j Hij). unfold entry in Hlow.
    destruct (lookup_lt_is_Some_2 v (tri i + j)) as [u Hu];
      [pose proof (tri_position_lt n i j Hij); lia |].
    rewrite Hu in *. destruct (t !! i) as [r |] eqn:Hr; [| discriminate].
    rewrite (nth_lookup_Some t i [] r Hr).
    now rewrite (nth_lookup_Some r j (Fin 0) u Hlow).
  - symmetry. apply lookup_ge_None.
    apply lookup_ge_None in Hk. rewrite length_tril_indices in Hk. lia.
Qed.

(** With [np] bound to [numpy] the round trip is exact on every row. *)
Lemma vec_to_tri_with_numpy_round_trip (vectors : tensor2) (n : nat) :
  ncols vectors = tri n ->
  wf_tensor2 vectors ->
  exists mats,
    Util.vec_to_tri Util.globals_with_numpy vectors = Ok mats
    /\ List.map (tri_to_vec n) mats = rows vectors.
Proof.
  intros HM Hwf.
  destruct (vec_to_tri_with_numpy_fills vectors n HM Hwf) as (mats & Hrun & Hfill).
  exists mats. split; [exact Hrun |].
  red in Hwf. clear Hrun.
  induction Hfill as [| v t vs ts Hvt _ IH]; [reflexivity |].
  apply Forall_cons in Hwf. destruct Hwf as [Hv Hwf]. simpl.
  rewrite (tri_to_vec_lower_fill n v t) by (congruence || assumption).
  f_equal. apply IH. exact Hwf.
Qed.

(** *** The module as it is written, at concrete tensors *)

Definition one_row (l : list tfloat) : tensor2 :=
  {| ncols := List.length l; rows := [l] |}.

Lemma scatter_three (a b c : tfloat) :
  TF.scatter_nd (Np.tril_indices 2) [a; b; c] 2 2
  = Ok [[a; Fin 0]; [b; c]].
Proof.
  unfold TF.scatter_nd.
  cbn -[TF.add]. unfold alter, list_alter. cbn -[TF.add].
  now rewrite !add_zero_l.
Qed.

(** C4 at the tensor [[1, 2, 3]], whose second dimension is the triangular
    number 3: the module as written raises [NameError] instead of
    returning the matrix [[1, 0], [2, 3]], which the module with [numpy]
    imported returns. *)
Theorem vec_to_tri_no_matrix_for_triangular_length :
  let vectors := one_row [Fin 1; Fin 2; Fin 3] in
  ncols vectors = tri 2
  /\ Util.vec_to_tri Util.module_globals vectors = Raise (NameError "np")
  /\ Util.vec_to_tri Util.globals_with_numpy vectors
     = Ok [[[Fin 1; Fin 0]; [Fin 2; Fin 3]]].
Proof.
  simpl. split; [reflexivity |]. split; [reflexivity |].
  unfold Util.vec_to_tri.
  change (Np.tri_dim (ncols (one_row [Fin 1; Fin 2; Fin 3]))) with 2.
  cbn -[TF.scatter_nd Np.tril_indices].
  now rewrite scatter_three.
Qed.

(** C3 at the tensor [[4, 5, 6]]: the module as written raises [NameError],
    so that no matrix exists to read the vector back from; with [numpy]
    imported the lower triangle of the result reads [4, 5, 6]. *)
Theorem vec_to_tri_round_trip_unreachable :
  let vectors := one_row [Fin 4; Fin 5; Fin 6] in
  List.length [Fin 4; Fin 5; Fin 6] = tri 2
  /\ Util.vec_to_tri Util.module_globals vectors = Raise (NameError "np")
  /\ exists mats,
       Util.vec_to_tri Util.globals_with_numpy vectors = Ok mats
       /\ List.map (tri_to_vec 2) mats = [[Fin 4; Fin 5; Fin 6]].
Proof.
  simpl. split; [reflexivity |]. split; [reflexivity |].
  apply (vec_to_tri_with_numpy_round_trip (one_row [Fin 4; Fin 5; Fin 6]) 2).
  - reflexivity.
  - repeat constructor.
Qed.

(** C8 at the tensor [[1, 2]], whose second dimension 2 is not a triangular
    number: the module as written raises [NameError] before the check of
    the length is reached; with [numpy] imported the check raises. *)
Theorem vec_to_tri_length_check_unreachable :
  let vectors := one_row [Fin 1; Fin 2] in
  (forall n, ncols vectors <> tri n)
  /\ Util.vec_to_tri Util.module_globals vectors = Raise (NameError "np")
  /\ Util.vec_to_tri Util.globals_with_numpy vectors = Raise AssertionError.
Proof.
  simpl. split; [| split; reflexivity].
  intros [| [| n]]; try discriminate.
  rewrite !tri_S. lia.
Qed.

End VecToTri.

(** ** The logistic regression models *)

(** One example of a batch, as [FairLogReg.inference] reads it: the logit
    of the dense layer, the label and the code of the sensitive group. *)
Record example : Type := Example { logit : tfloat; label : Z; group : Z }.

(** [log_debias[y, s, :]] *)
Definition debias_entry (log_debias : LogisticRegression.debias_tensor)
    (y s : Z) : tfloat * tfloat :=
  nth (Z.to_nat s) (nth (Z.to_nat y) log_debias []) (NaN, NaN).

Definition in_range (log_debias : LogisticRegression.debias_tensor)
    (y s : Z) : Prop :=
  (0 <= y)%Z /\ (0 <= s)%Z
  /\ (Z.to_nat y < List.length log_debias)%nat
  /\ (Z.to_nat s < List.length (nth (Z.to_nat y) log_debias []))%nat.

(** The two weighted terms of an example. *)
Definition weighted0 (log_debias : LogisticRegression.debias_tensor)
    (ex : example) : tfloat :=
  TF.add (fst (debias_entry log_debias (label ex) (group ex)))
    (TF.log_sigmoid (TF.neg (logit ex))).

Definition weighted1 (log_debias : LogisticRegression.debias_tensor)
    (ex : example) : tfloat :=
  TF.add (snd (debias_entry log_debias (label ex) (group ex)))
    (TF.log_sigmoid (logit ex)).

(** The reduction as the specification writes it:
    [max(w0, w1) + log(exp(w0 - max) + exp(w1 - max))]. *)
Definition spec_combined (w0 w1 : tfloat) : tfloat :=
  let m := TF.max w0 w1 in
  TF.add m (TF.log (TF.add (TF.exp (TF.sub w0 m)) (TF.exp (TF.sub w1 m)))).

(** The data term of the specification: the negative mean of the combined
    terms over the batch. *)
Definition spec_regr_loss (log_debias : LogisticRegression.debias_tensor)
    (batch : list example) : tfloat :=
  TF.neg (TF.reduce_mean
            (List.map (fun ex => spec_combined (weighted0 log_debias ex)
                                   (weighted1 log_debias ex)) batch)).

(** The correction that leaves the likelihood as it is: the logarithm of
    the identity, [0] where [y' = y] and minus infinity elsewhere, for [G]
    groups. *)
Definition identity_debias (G : nat) : LogisticRegression.debias_tensor :=
  [replicate G (Fin 0, NInf); replicate G (NInf, Fin 0)].

(** The all-zero correction for [G] groups. *)
Definition zero_debias (G : nat) : LogisticRegression.debias_tensor :=
  [replicate G (Fin 0, Fin 0); replicate G (Fin 0, Fin 0)].

(** An example with a finite logit, a binary label and one of [G] groups. *)
Definition binary_example (G : nat) (ex : example) : Prop :=
  (exists x, logit ex = Fin x)
  /\ (label ex = 0 \/ label ex = 1)%Z
  /\ (0 <= group ex < Z.of_nat G)%Z.

(** The data term of the baseline: the negative mean of minus the cross
    entropy of every example. *)
Definition baseline_regr_loss (batch : list example) : tfloat :=
  TF.neg (TF.reduce_mean
            (List.map (fun ex =>
               TF.neg (TF.sigmoid_cross_entropy_with_logits
                         (Fin (IZR (label ex))) (logit ex))) batch)).

Section LogisticRegressionFacts.

Import LogisticRegression.

Variable Args : Type.
Variable Features : Type.
Variable Inputs : Type.
Variable sensitive : Features -> tensor2.
Variable construct_input : Features -> Args -> result Inputs.
Variable debiasing_params_target_rate : Args -> result debias_tensor.
Variable debiasing_params_target_tpr : Args -> result debias_tensor.

Abbreviation log_reg := (LogReg_inference construct_input).
Abbreviation fair_log_reg :=
  (FairLogReg_inference sensitive construct_input
     debiasing_params_target_rate debiasing_params_target_tpr).
Abbreviation dispatch :=
  (inference sensitive construct_input
     debiasing_params_target_rate debiasing_params_target_tpr).
Abbreviation debias_of :=
  (_log_debiasing_parameters debiasing_params_target_rate
     debiasing_params_target_tpr).

Lemma Int_part_IZR (z : Z) : Int_part (IZR z) = z.
Proof. symmetry. apply Int_part_spec. lra. Qed.

Lemma cast_int32_IZR (z : Z) : cast_int32 (Fin (IZR z)) = z.
Proof.
  unfold cast_int32. destruct (Rle_dec 0 (IZR z)) as [_ | _].
  - apply Int_part_IZR.
  - rewrite <- opp_IZR, Int_part_IZR. lia.
Qed.

Lemma squeeze_last_column (l : list tfloat) : TF.squeeze_last (column l) = Ok l.
Proof.
  unfold TF.squeeze_last, column. simpl. f_equal.
  induction l as [| x l IH]; simpl; [reflexivity | now rewrite IH].
Qed.

Lemma gather_one_in_range (log_debias : debias_tensor) (y s : Z) :
  in_range log_debias y s ->
  gather_one log_debias y s = Ok (debias_entry log_debias y s).
Proof.
  intros (Hy & Hs & Hrow & Hcol). unfold gather_one, debias_entry.
  rewrite (proj2 (Z.leb_le 0 y) Hy), (proj2 (Z.leb_le 0 s) Hs). simpl.
  rewrite (nth_error_nth' log_debias [] Hrow).
  now rewrite (nth_error_nth' _ (NaN, NaN) Hcol).
Qed.

Lemma gather_nd_batch (log_debias : debias_tensor) (batch : list example) :
  Forall (fun ex => in_range log_debias (label ex) (group ex)) batch ->
  gather_nd log_debias (List.map label batch) (List.map group batch)
  = Ok (List.map (fun ex => debias_entry log_debias (label ex) (group ex)) batch).
Proof.
  intros Hr. unfold gather_nd. rewrite !length_map, Nat.eqb_refl.
  induction Hr as [| ex batch Hex _ IH]; simpl; [reflexivity |].
  rewrite (gather_one_in_range _ _ _ Hex). simpl. now rewrite IH.
Qed.

Lemma add_pairs_batch (log_debias : debias_tensor) (batch : list example) :
  add_pairs
    (List.map (fun ex => debias_entry log_debias (label ex) (group ex)) batch)
    (combine
       (List.map (fun x => TF.log_sigmoid (TF.neg x)) (List.map logit batch))
       (List.map TF.log_sigmoid (List.map logit batch)))
  = Ok (List.map (fun ex => [weighted0 log_debias ex; weighted1 log_debias ex])
          batch).
Proof.
  unfold add_pairs.
  rewrite length_combine, !length_map, Nat.min_id, Nat.eqb_refl. f_equal.
  induction batch as [| ex batch IH]; simpl; [reflexivity |].
  now rewrite IH.
Qed.

Lemma max_NInf_l (a : tfloat) : TF.max NInf a = a.
Proof. now destruct a. Qed.

Lemma reduce_max_pair (a b : tfloat) : TF.reduce_max [a; b] = TF.max a b.
Proof. unfold TF.reduce_max. cbn [fold_left]. now rewrite max_NInf_l. Qed.

Lemma reduce_sum_pair (a b : tfloat) : TF.reduce_sum [a; b] = TF.add a b.
Proof. unfold TF.reduce_sum. cbn [fold_left]. now rewrite add_zero_l. Qed.

(** When the larger of two terms is finite, the library reduction is the
    max-shifted formula of the specification. *)
Lemma reduce_logsumexp_pair (w0 w1 : tfloat) :
  TF.is_finite (TF.max w0 w1) = true ->
  TF.reduce_logsumexp [w0; w1] = spec_combined w0 w1.
Proof.
  intros Hfin. unfold TF.reduce_logsumexp, spec_combined.
  rewrite reduce_max_pair, Hfin. cbn [List.map].
  rewrite reduce_sum_pair. apply add_comm.
Qed.

Lemma map_cast_int32 {A} (f : A -> Z) (l : list A) :
  List.map cast_int32 (List.map (fun a => Fin (IZR (f a))) l) = List.map f l.
Proof.
  induction l as [| a l IH]; cbn [List.map]; [reflexivity |].
  now rewrite IH, cast_int32_IZR.
Qed.

Lemma map_reduce_logsumexp (log_debias : debias_tensor) (batch : list example) :
  Forall (fun ex => TF.is_finite (TF.max (weighted0 log_debias ex)
                                    (weighted1 log_debias ex)) = true) batch ->
  List.map TF.reduce_logsumexp
    (List.map (fun ex => [weighted0 log_debias ex; weighted1 log_debias ex]) batch)
  = List.map (fun ex => spec_combined (weighted0 log_debias ex)
                          (weighted1 log_debias ex)) batch.
Proof.
  induction 1 as [| ex batch Hex _ IH]; cbn [List.map]; [reflexivity |].
  now rewrite IH, (reduce_logsumexp_pair _ _ Hex).
Qed.

(** The library reduction of the weighted terms of every example. *)
Definition library_regr_loss (log_debias : debias_tensor) (batch : list example)
    : tfloat :=
  TF.neg (TF.reduce_mean
            (List.map TF.reduce_logsumexp
               (List.map (fun ex => [weighted0 log_debias ex;
                                     weighted1 log_debias ex]) batch))).

(** [FairLogReg.inference] on a training batch given by its examples, when
    the labels and group codes index the correction tensor inside its
    bounds. *)
Lemma fair_inference_training_steps
    (self : instance Args Inputs) (features : Features) (outputs : tensor2)
    (batch : list example) (inputs : Inputs) (log_debias : debias_tensor)
    (l2 : tfloat) :
  sensitive features = column (List.map (fun ex => Fin (IZR (group ex))) batch) ->
  outputs = column (List.map (fun ex => Fin (IZR (label ex))) batch) ->
  construct_input features (args self) = Ok inputs ->
  _model self inputs = Ok (column (List.map logit batch)) ->
  debias_of self = Ok log_debias ->
  _l2_loss self = Ok l2 ->
  Forall (fun ex => in_range log_debias (label ex) (group ex)) batch ->
  fair_log_reg self features outputs true
  = Ok {| loss := Scalar (TF.add (library_regr_loss log_debias batch) l2);
          regr_loss := Scalar (library_regr_loss log_debias batch);
          l2_loss := l2 |}.
Proof.
  intros Hsens Hout Hin Hmodel Hdeb Hl2 Hrange.
  unfold FairLogReg_inference, _get_inputs. cbn [negb].
  rewrite Hsens, Hout, !squeeze_last_column. cbn [Py.bind].
  rewrite Hin. cbn [Py.bind]. rewrite Hmodel. cbn [Py.bind].
  rewrite squeeze_last_column. cbn [Py.bind].
  rewrite Hdeb. cbn [Py.bind].
  rewrite !map_cast_int32, (gather_nd_batch _ _ Hrange). cbn [Py.bind].
  rewrite add_pairs_batch. cbn [Py.bind].
  rewrite Hl2. reflexivity.
Qed.

(** C2.  On a training batch [FairLogReg.inference] forms the two weighted
    terms of every example, combines them with the max-shifted reduction of
    the specification, and returns the negative mean of the combined terms
    plus the regularization term.  The batch is given by its examples; the
    labels and group codes index the correction tensor inside its bounds,
    and the larger weighted term of every example is finite. *)
Theorem fair_inference_training_loss
    (self : instance Args Inputs) (features : Features) (outputs : tensor2)
    (batch : list example) (inputs : Inputs) (log_debias : debias_tensor)
    (l2 : tfloat) :
  sensitive features = column (List.map (fun ex => Fin (IZR (group ex))) batch) ->
  outputs = column (List.map (fun ex => Fin (IZR (label ex))) batch) ->
  construct_input features (args self) = Ok inputs ->
  _model self inputs = Ok (column (List.map logit batch)) ->
  debias_of self = Ok log_debias ->
  _l2_loss self = Ok l2 ->
  Forall (fun ex => in_range log_debias (label ex) (group ex)) batch ->
  Forall (fun ex => TF.is_finite (TF.max (weighted0 log_debias ex)
                                    (weighted1 log_debias ex)) = true) batch ->
  fair_log_reg self features outputs true
  = Ok {| loss := Scalar (TF.add (spec_regr_loss log_debias batch) l2);
          regr_loss := Scalar (spec_regr_loss log_debias batch);
          l2_loss := l2 |}.
Proof.
  intros Hsens Hout Hin Hmodel Hdeb Hl2 Hrange Hfin.
  rewrite (fair_inference_training_steps self features outputs batch inputs
             log_debias l2 Hsens Hout Hin Hmodel Hdeb Hl2 Hrange).
  unfold library_regr_loss, spec_regr_loss.
  now rewrite (map_reduce_logsumexp log_debias batch Hfin).
Qed.

Lemma xent_rows (batch : list example) :
  List.map (fun zx =>
     List.map (fun zx' => TF.sigmoid_cross_entropy_with_logits (fst zx') (snd zx'))
       (combine (fst zx) (snd zx)))
    (combine (rows (column (List.map (fun ex => Fin (IZR (label ex))) batch)))
       (rows (column (List.map logit batch))))
  = List.map (fun ex => [TF.sigmoid_cross_entropy_with_logits
                           (Fin (IZR (label ex))) (logit ex)]) batch.
Proof.
  cbn [rows column].
  induction batch as [| ex batch IH]; cbn [List.map combine fst snd];
    [reflexivity |].
  now rewrite IH.
Qed.

Lemma concat_neg_rows (batch : list example) :
  List.concat
    (List.map (List.map TF.neg)
       (List.map (fun ex => [TF.sigmoid_cross_entropy_with_logits
                               (Fin (IZR (label ex))) (logit ex)]) batch))
  = List.map (fun ex => TF.neg (TF.sigmoid_cross_entropy_with_logits
                                  (Fin (IZR (label ex))) (logit ex))) batch.
Proof.
  induction batch as [| ex batch IH]; cbn [List.map List.concat app];
    [reflexivity |].
  now rewrite IH.
Qed.

(** [LogReg.inference] on a batch given by its examples, of any size but
    one: the negative mean of the log-likelihoods of the observed labels
    plus the regularization term. *)
Lemma baseline_inference_loss
    (self : instance Args Inputs) (features : Features) (outputs : tensor2)
    (batch : list example) (inputs : Inputs) (l2 : tfloat) (is_train : bool) :
  outputs = column (List.map (fun ex => Fin (IZR (label ex))) batch) ->
  construct_input features (args self) = Ok inputs ->
  _model self inputs = Ok (column (List.map logit batch)) ->
  _l2_loss self = Ok l2 ->
  List.length batch <> 1%nat ->
  log_reg self features outputs is_train
  = Ok {| loss := Scalar (TF.add (baseline_regr_loss batch) l2);
          regr_loss := Scalar (baseline_regr_loss batch);
          l2_loss := l2 |}.
Proof.
  intros Hout Hin Hmodel Hl2 Hlen.
  unfold LogReg_inference, _get_inputs.
  rewrite Hin. cbn [Py.bind]. rewrite Hmodel. cbn [Py.bind].
  unfold sigmoid_cross_entropy. rewrite Hout, xent_rows.
  cbn [ncols rows column]. rewrite !length_map, !Nat.eqb_refl.
  cbn [andb Py.bind]. rewrite Hl2. cbn [Py.bind].
  unfold squeeze_reduce_mean, neg_tensor2. cbn [ncols rows].
  rewrite !length_map, concat_neg_rows.
  destruct (Nat.eqb_spec (List.length batch) 1) as [Heq | _];
    [contradiction | reflexivity].
Qed.

Lemma add_Fin0_l (a : tfloat) : TF.add (Fin 0) a = a.
Proof. exact (add_zero_l a). Qed.

Lemma spec_combined_Fin (a b : R) :
  spec_combined (Fin a) (Fin b)
  = Fin (ln (Rtrigo_def.exp a + Rtrigo_def.exp b)).
Proof.
  unfold spec_combined. cbn [TF.max TF.sub TF.neg TF.add TF.exp].
  pose proof (exp_pos (a + - Rmax a b)). pose proof (exp_pos (b + - Rmax a b)).
  rewrite log_Fin_pos by lra. cbn [TF.add]. f_equal.
  apply logsumexp_shift.
Qed.

Lemma exp_self_cancel (a : R) : 0 + Rtrigo_def.exp (a + - a) = 1.
Proof. replace (a + - a) with 0 by lra. rewrite exp_0. lra. Qed.

Lemma spec_combined_NInf_l (a : R) : spec_combined NInf (Fin a) = Fin a.
Proof.
  unfold spec_combined. cbn [TF.max TF.sub TF.neg TF.add TF.exp].
  rewrite exp_self_cancel, log_Fin_pos by lra. cbn [TF.add].
  rewrite ln_1. f_equal. lra.
Qed.

Lemma spec_combined_NInf_r (a : R) : spec_combined (Fin a) NInf = Fin a.
Proof.
  unfold spec_combined. cbn [TF.max TF.sub TF.neg TF.add TF.exp].
  rewrite (Rplus_comm _ 0), exp_self_cancel, log_Fin_pos by lra. cbn [TF.add].
  rewrite ln_1. f_equal. lra.
Qed.

Lemma nth_replicate_lt {A} (n i : nat) (c d : A) :
  (i < n)%nat -> nth i (replicate n c) d = c.
Proof.
  intros Hi. apply nth_lookup_Some. now apply lookup_replicate_2.
Qed.

Lemma in_range_two_rows (G : nat) (c0 c1 : tfloat * tfloat) (ex : example) :
  binary_example G ex ->
  in_range [replicate G c0; replicate G c1] (label ex) (group ex).
Proof.
  intros (_ & Hy & Hs). unfold in_range.
  destruct Hy as [-> | ->];
    change (Z.to_nat 0) with 0%nat; change (Z.to_nat 1) with 1%nat;
    cbn [nth List.length]; rewrite length_replicate; repeat split; lia.
Qed.

Lemma debias_entry_two_rows (G : nat) (c0 c1 : tfloat * tfloat) (ex : example) :
  binary_example G ex ->
  debias_entry [replicate G c0; replicate G c1] (label ex) (group ex)
  = if (label ex =? 0)%Z then c0 else c1.
Proof.
  intros (_ & Hy & Hs). unfold debias_entry.
  destruct Hy as [-> | ->];
    change (Z.to_nat 0) with 0%nat; change (Z.to_nat 1) with 1%nat;
    cbn [nth Z.eqb]; apply nth_replicate_lt; lia.
Qed.

(** Under the identity correction the combined term of an example is the
    log-likelihood of its label, which is minus its cross entropy. *)
Lemma combined_identity (G : nat) (ex : example) :
  binary_example G ex ->
  TF.is_finite (TF.max (weighted0 (identity_debias G) ex)
                  (weighted1 (identity_debias G) ex)) = true
  /\ spec_combined (weighted0 (identity_debias G) ex)
       (weighted1 (identity_debias G) ex)
     = TF.neg (TF.sigmoid_cross_entropy_with_logits
                 (Fin (IZR (label ex))) (logit ex)).
Proof.
  intros Hex. unfold weighted0, weighted1, identity_debias.
  rewrite (debias_entry_two_rows G _ _ ex Hex).
  destruct Hex as ((x & Hx) & Hy & _). rewrite Hx.
  destruct Hy as [-> | ->]; cbn [Z.eqb fst snd].
  - rewrite cross_entropy_label_0, log_sigmoid_neg_Fin, log_sigmoid_Fin.
    cbn [TF.add]. rewrite spec_combined_NInf_r. split; [reflexivity |].
    f_equal. lra.
  - rewrite cross_entropy_label_1, log_sigmoid_neg_Fin, log_sigmoid_Fin.
    cbn [TF.add]. rewrite spec_combined_NInf_l. split; [reflexivity |].
    f_equal. lra.
Qed.

(** Under the all-zero correction the combined term of an example is the
    logarithm of the sum of the two class probabilities, which is zero. *)
Lemma combined_zero (G : nat) (ex : example) :
  binary_example G ex ->
  TF.is_finite (TF.max (weighted0 (zero_debias G) ex)
                  (weighted1 (zero_debias G) ex)) = true
  /\ spec_combined (weighted0 (zero_debias G) ex) (weighted1 (zero_debias G) ex)
     = Fin 0.
Proof.
  intros Hex. unfold weighted0, weighted1, zero_debias.
  rewrite (debias_entry_two_rows G _ _ ex Hex).
  destruct Hex as ((x & Hx) & _ & _). rewrite Hx.
  replace (if (label ex =? 0)%Z then (Fin 0, Fin 0) else (Fin 0, Fin 0))
    with (Fin 0, Fin 0) by (now destruct (label ex =? 0)%Z).
  cbn [fst snd]. rewrite !add_Fin0_l, log_sigmoid_neg_Fin, log_sigmoid_Fin.
  split; [reflexivity |].
  rewrite spec_combined_Fin, sigmoid_sum, ln_1. reflexivity.
Qed.

Lemma Rsum_zeros {A} (l : list A) : Rsum (List.map (fun _ : A => 0) l) = 0.
Proof.
  induction l as [| a l IH]; cbn [List.map Rsum fold_right]; [reflexivity |].
  fold (Rsum (List.map (fun _ : A => 0) l)). rewrite IH. lra.
Qed.

Lemma reduce_mean_zeros {A} (l : list A) :
  l <> [] -> TF.reduce_mean (List.map (fun _ => Fin 0) l) = Fin 0.
Proof.
  intros Hne. unfold TF.reduce_mean.
  replace (List.map (fun _ : A => Fin 0) l)
    with (List.map Fin (List.map (fun _ : A => 0) l))
    by (now rewrite List.map_map).
  rewrite reduce_sum_Fin, !length_map, Rsum_zeros.
  destruct l as [| a l]; [contradiction |]. cbn [List.length TF.div_count].
  f_equal. unfold Rdiv. apply Rmult_0_l.
Qed.

Lemma library_regr_loss_identity (G : nat) (batch : list example) :
  Forall (binary_example G) batch ->
  library_regr_loss (identity_debias G) batch = baseline_regr_loss batch.
Proof.
  intros Hb. unfold library_regr_loss, baseline_regr_loss. do 2 f_equal.
  induction Hb as [| ex batch Hex _ IH]; cbn [List.map]; [reflexivity |].
  destruct (combined_identity G ex Hex) as [Hfin Heq].
  now rewrite IH, (reduce_logsumexp_pair _ _ Hfin), Heq.
Qed.

Lemma library_regr_loss_zero (G : nat) (batch : list example) :
  Forall (binary_example G) batch -> batch <> [] ->
  library_regr_loss (zero_debias G) batch = Fin 0.
Proof.
  intros Hb Hne. unfold library_regr_loss.
  replace (List.map TF.reduce_logsumexp _)
    with (List.map (fun _ : example => Fin 0) batch).
  - rewrite (reduce_mean_zeros batch Hne). cbn [TF.neg]. f_equal. lra.
  - clear Hne. induction Hb as [| ex batch Hex _ IH]; cbn [List.map];
      [reflexivity |].
    destruct (combined_zero G ex Hex) as [Hfin Heq].
    now rewrite IH, (reduce_logsumexp_pair _ _ Hfin), Heq.
Qed.

(** With the all-zero correction the data term of the fair loss vanishes
    and the loss is the regularization term alone. *)
Lemma fair_inference_zero_debias
    (self : instance Args Inputs) (features : Features) (outputs : tensor2)
    (batch : list example) (inputs : Inputs) (l2 : tfloat) (G : nat) :
  sensitive features = column (List.map (fun ex => Fin (IZR (group ex))) batch) ->
  outputs = column (List.map (fun ex => Fin (IZR (label ex))) batch) ->
  construct_input features (args self) = Ok inputs ->
  _model self inputs = Ok (column (List.map logit batch)) ->
  debias_of self = Ok (zero_debias G) ->
  _l2_loss self = Ok l2 ->
  Forall (binary_example G) batch ->
  batch <> [] ->
  fair_log_reg self features outputs true
  = Ok {| loss := Scalar l2; regr_loss := Scalar (Fin 0); l2_loss := l2 |}.
Proof.
  intros Hsens Hout Hin Hmodel Hdeb Hl2 Hb Hne.
  rewrite (fair_inference_training_steps self features outputs batch inputs
             (zero_debias G) l2 Hsens Hout Hin Hmodel Hdeb Hl2).
  - now rewrite (library_regr_loss_zero G batch Hb Hne), add_Fin0_l.
  - eapply List.Forall_impl; [| exact Hb]. apply in_range_two_rows.
Qed.

(** C1, amended.  When the correction tensor is the logarithm of the
    identity ([0] where the observed label is the true label, minus
    infinity elsewhere), the fair training loss is the baseline loss on the
    same batch: the negative mean log-likelihood of the observed labels
    plus the same regularization term.  The batch has binary labels, group
    codes below [G], finite logits, and any size but one. *)
Theorem fair_inference_identity_debias_is_baseline
    (self : instance Args Inputs) (features : Features) (outputs : tensor2)
    (batch : list example) (inputs : Inputs) (l2 : tfloat) (G : nat) :
  sensitive features = column (List.map (fun ex => Fin (IZR (group ex))) batch) ->
  outputs = column (List.map (fun ex => Fin (IZR (label ex))) batch) ->
  construct_input features (args self) = Ok inputs ->
  _model self inputs = Ok (column (List.map logit batch)) ->
  debias_of self = Ok (identity_debias G) ->
  _l2_loss self = Ok l2 ->
  Forall (binary_example G) batch ->
  List.length batch <> 1%nat ->
  fair_log_reg self features outputs true = log_reg self features outputs true
  /\ log_reg self features outputs true
     = Ok {| loss := Scalar (TF.add (baseline_regr_loss batch) l2);
             regr_loss := Scalar (baseline_regr_loss batch);
             l2_loss := l2 |}.
Proof.
  intros Hsens Hout Hin Hmodel Hdeb Hl2 Hb Hlen.
  rewrite (baseline_inference_loss self features outputs batch inputs l2 true
             Hout Hin Hmodel Hl2 Hlen).
  split; [| reflexivity].
  rewrite (fair_inference_training_steps self features outputs batch inputs
             (identity_debias G) l2 Hsens Hout Hin Hmodel Hdeb Hl2).
  - now rewrite (library_regr_loss_identity G batch Hb).
  - eapply List.Forall_impl; [| exact Hb]. apply in_range_two_rows.
Qed.

(** C10.  Outside training [FairLogReg.inference] is [LogReg.inference]:
    for every instance, whatever its class, a call of [inference] with
    [is_train] false returns what the baseline returns on the same
    arguments, exception included. *)
Theorem inference_not_training_is_baseline
    (self : instance Args Inputs) (features : Features) (outputs : tensor2) :
  fair_log_reg self features outputs false = log_reg self features outputs false
  /\ dispatch self features outputs false = log_reg self features outputs false.
Proof.
  split; [reflexivity |].
  unfold inference. destruct (class_of self); reflexivity.
Qed.

End LogisticRegressionFacts.

(** *** A concrete model and batch *)

(** A model whose dense layer has zero weights and no bias: every logit is
    zero, and the only regularization loss is zero.  The batch has two
    examples of label 1 in group 0. *)
Definition demo_batch : list example :=
  [Example (Fin 0) 1 0; Example (Fin 0) 1 0].

Definition demo_outputs : tensor2 := column [Fin 1; Fin 1].

Definition demo_sensitive (_ : unit) : tensor2 := column [Fin 0; Fin 0].

Definition demo_construct_input (_ : unit) (_ : unit) : result unit := Ok tt.

Definition demo_self (k : LogisticRegression.klass)
    : LogisticRegression.instance unit unit :=
  LogisticRegression.Instance unit unit k tt
    (fun _ => Ok (column [Fin 0; Fin 0])) [Fin 0].

(** [FairLogReg.inference] of the concrete model when both sources of the
    correction return [log_debias]. *)
Definition demo_fair (log_debias : LogisticRegression.debias_tensor)
    (k : LogisticRegression.klass) (is_train : bool)
    : result LogisticRegression.loss_dict :=
  LogisticRegression.FairLogReg_inference demo_sensitive demo_construct_input
    (fun _ => Ok log_debias) (fun _ => Ok log_debias)
    (demo_self k) tt demo_outputs is_train.

Definition demo_baseline (k : LogisticRegression.klass) (is_train : bool)
    : result LogisticRegression.loss_dict :=
  LogisticRegression.LogReg_inference demo_construct_input
    (demo_self k) tt demo_outputs is_train.

Section ConcreteModel.

Import LogisticRegression.

Lemma demo_batch_binary : Forall (binary_example 1) demo_batch.
Proof.
  repeat constructor; try (now exists 0); try (now right); simpl; lia.
Qed.

Lemma demo_baseline_regr_loss : baseline_regr_loss demo_batch = Fin (ln 2).
Proof.
  unfold baseline_regr_loss, demo_batch. cbn [List.map label logit].
  rewrite cross_entropy_label_1, log_sigmoid_Fin.
  unfold TF.reduce_mean, TF.reduce_sum, TF.zero.
  cbn [fold_left TF.add List.length TF.div_count TF.neg INR].
  f_equal. rewrite Ropp_0, exp_0.
  replace (1 + 1) with 2 by lra. lra.
Qed.

Lemma ln_2_pos : 0 < ln 2.
Proof. pose proof ln_lt_2. lra. Qed.

(** The claim of C1 fails at the concrete model with the all-zero
    correction: the fair training loss is 0, the baseline loss on the same
    batch is [ln 2]. *)
Lemma fair_loss_zero_debias_differs_from_baseline :
  demo_fair (zero_debias 1) FairLogReg true
  = Ok {| loss := Scalar (Fin 0); regr_loss := Scalar (Fin 0); l2_loss := Fin 0 |}
  /\ demo_baseline FairLogReg true
     = Ok {| loss := Scalar (Fin (ln 2)); regr_loss := Scalar (Fin (ln 2));
             l2_loss := Fin 0 |}
  /\ demo_fair (zero_debias 1) FairLogReg true <> demo_baseline FairLogReg true.
Proof.
  assert (Hfair : demo_fair (zero_debias 1) FairLogReg true
                  = Ok {| loss := Scalar (Fin 0); regr_loss := Scalar (Fin 0);
                          l2_loss := Fin 0 |}).
  { apply (fair_inference_zero_debias unit unit unit demo_sensitive
             demo_construct_input _ _ (demo_self FairLogReg) tt demo_outputs
             demo_batch tt (Fin 0) 1); try reflexivity.
    - apply demo_batch_binary.
    - discriminate. }
  assert (Hbase : demo_baseline FairLogReg true
                  = Ok {| loss := Scalar (Fin (ln 2));
                          regr_loss := Scalar (Fin (ln 2)); l2_loss := Fin 0 |}).
  { unfold demo_baseline.
    rewrite (baseline_inference_loss unit unit unit demo_construct_input
               (demo_self FairLogReg) tt demo_outputs demo_batch tt (Fin 0) true);
      try reflexivity; [| discriminate].
    rewrite demo_baseline_regr_loss. cbn [TF.add].
    replace (ln 2 + 0) with (ln 2) by lra. reflexivity. }
  split; [exact Hfair |]. split; [exact Hbase |].
  rewrite Hfair, Hbase. intros Heq.
  injection Heq as Heq _. pose proof ln_2_pos. lra.
Qed.

Lemma fair_inference_identity_debias_is_baseline_witness :
  demo_fair (identity_debias 1) FairLogReg true = demo_baseline FairLogReg true
  /\ demo_baseline FairLogReg true
     = Ok {| loss := Scalar (TF.add (baseline_regr_loss demo_batch) (Fin 0));
             regr_loss := Scalar (baseline_regr_loss demo_batch);
             l2_loss := Fin 0 |}.
Proof.
  apply (fair_inference_identity_debias_is_baseline unit unit unit
           demo_sensitive demo_construct_input _ _ (demo_self FairLogReg) tt
           demo_outputs demo_batch tt (Fin 0) 1); try reflexivity.
  - apply demo_batch_binary.
  - discriminate.
Defined.

Lemma fair_inference_training_loss_witness :
  demo_fair (zero_debias 1) EqOddsLogReg true
  = Ok {| loss := Scalar (TF.add (spec_regr_loss (zero_debias 1) demo_batch) (Fin 0));
          regr_loss := Scalar (spec_regr_loss (zero_debias 1) demo_batch);
          l2_loss := Fin 0 |}.
Proof.
  apply (fair_inference_training_loss unit unit unit demo_sensitive
           demo_construct_input _ _ (demo_self EqOddsLogReg) tt demo_outputs
           demo_batch tt (zero_debias 1) (Fin 0)); try reflexivity.
  - eapply List.Forall_impl; [| exact demo_batch_binary].
    apply in_range_two_rows.
  - eapply List.Forall_impl; [| exact demo_batch_binary].
    intros ex Hex. apply (combined_zero 1 ex Hex).
Defined.

End ConcreteModel.

(** ** [construct_from_flags] *)

Section ConstructFromFlags.

Import TrainHelper.

Variables World Kernel Likelihood GP Optimizer Param Inducing : Type.
Variable cov : gmap string (nat -> gmap string flag_value -> action World Kernel).
Variable lik : gmap string (gmap string flag_value -> action World Likelihood).
Variable inf : gmap string (list Kernel -> Likelihood -> nat -> Inducing ->
                            gmap string flag_value -> action World GP).
Variable tf_train : gmap string (flag_value -> action World Optimizer).
Variable kernel_get_params : Kernel -> list Param.
Variable lik_get_params : Likelihood -> list Param.

(** [runs c n w xs w']: [n] calls of [c] in a row, the first in state [w],
    each in the state left by the one before, return [xs] and leave
    [w']. *)
Inductive runs {A} (c : action World A) : nat -> World -> list A -> World -> Prop :=
| runs_O (w : World) : runs c 0 w [] w
| runs_S (n : nat) (w w1 w2 : World) (x : A) (xs : list A) :
    c w = Ok (x, w1) -> runs c n w1 xs w2 -> runs c (S n) w (x :: xs) w2.

(** An action that never raises. *)
Definition total {A} (c : action World A) : Prop :=
  forall w, exists x w', c w = Ok (x, w').

Lemma runs_length {A} (c : action World A) (n : nat) (w w' : World) (xs : list A) :
  runs c n w xs w' -> List.length xs = n.
Proof. induction 1; simpl; congruence. Qed.

Lemma comprehension_ext {A} (b1 b2 : action World A) (n : nat) :
  (forall w, b1 w = b2 w) -> forall w, comprehension n b1 w = comprehension n b2 w.
Proof.
  intros Hext. induction n as [| n IH]; intros w; simpl; [reflexivity |].
  unfold then_ at 1 3. rewrite Hext.
  destruct (b2 w) as [[x w1] | e]; simpl; [| reflexivity].
  unfold then_. now rewrite IH.
Qed.

Lemma comprehension_total {A} (c : action World A) (n : nat) :
  total c ->
  forall w, exists xs w', comprehension n c w = Ok (xs, w') /\ runs c n w xs w'.
Proof.
  intros Htot. induction n as [| n IH]; intros w.
  - exists [], w. split; [reflexivity | constructor].
  - destruct (Htot w) as (x & w1 & Hx).
    destruct (IH w1) as (xs & w2 & Hxs & Hruns).
    exists (x :: xs), w2. split.
    + simpl. unfold then_ at 1. rewrite Hx. simpl.
      unfold then_ at 1. rewrite Hxs. reflexivity.
    + econstructor; eassumption.
Qed.

Lemma fold_app_concat {A} (ls : list (list A)) (acc : list A) :
  fold_left (fun a l => a ++ l) ls acc = acc ++ List.concat ls.
Proof.
  revert acc. induction ls as [| l ls IH]; intros acc; simpl.
  - now rewrite app_nil_r.
  - now rewrite IH, app_assoc.
Qed.

Lemma sum_lists_concat {A} (ls : list (list A)) : sum_lists ls = List.concat ls.
Proof. unfold sum_lists. now rewrite fold_app_concat. Qed.

Lemma then_lift_Ok {A B} (a : A) (k : A -> action World B) (w : World) :
  then_ (lift (Ok a)) k w = k a w.
Proof. reflexivity. Qed.

Lemma then_Ok {A B} (c : action World A) (k : A -> action World B)
    (w w' : World) (a : A) :
  c w = Ok (a, w') -> then_ c k w = k a w'.
Proof. intros H. unfold then_. now rewrite H. Qed.

(** C9.  When the names of the configuration resolve and the constructors
    do not raise, [construct_from_flags] creates the kernels by [d] calls
    in a row of the kernel constructor, hands these [d] kernels to the
    inference strategy, and returns as hyperparameters the parameters of
    the likelihood followed by the parameters of every kernel, in
    the order of the kernels. *)
Theorem construct_from_flags_hyper_params
    (flags : gmap string flag_value) (input_dim d : nat) (lname : string)
    (inducing : Inducing) (num_train : nat) (w : World)
    (kname iname oname : string) (lr : flag_value)
    (kctor : nat -> gmap string flag_value -> action World Kernel)
    (lctor : gmap string flag_value -> action World Likelihood)
    (ictor : list Kernel -> Likelihood -> nat -> Inducing ->
             gmap string flag_value -> action World GP)
    (octor : flag_value -> action World Optimizer) :
  flags !! "cov"%string = Some (FStr kname) ->
  cov !! kname = Some kctor ->
  total (kctor input_dim flags) ->
  lik !! lname = Some lctor ->
  total (lctor flags) ->
  flags !! "inf"%string = Some (FStr iname) ->
  inf !! iname = Some ictor ->
  (forall ks l, total (ictor ks l num_train inducing flags)) ->
  flags !! "optimizer"%string = Some (FStr oname) ->
  tf_train !! oname = Some octor ->
  flags !! "lr"%string = Some lr ->
  total (octor lr) ->
  exists cov_func lik_func gp opt w1 w2 w3 w4,
    runs (kctor input_dim flags) d w cov_func w1
    /\ List.length cov_func = d
    /\ lctor flags w1 = Ok (lik_func, w2)
    /\ ictor cov_func lik_func num_train inducing flags w2 = Ok (gp, w3)
    /\ octor lr w3 = Ok (opt, w4)
    /\ construct_from_flags cov lik inf tf_train kernel_get_params lik_get_params
         flags input_dim d lname inducing num_train w
       = Ok ((gp,
              lik_get_params lik_func
                ++ List.concat (List.map kernel_get_params cov_func),
              opt), w4).
Proof.
  intros Hcov Hk Hktot Hl Hltot Hinf Hi Hitot Hopt Ho Hlr Hotot.
  destruct (comprehension_total (kctor input_dim flags) d Hktot w)
    as (cov_func & w1 & Hrun & Hruns).
  destruct (Hltot w1) as (lik_func & w2 & Hlik).
  destruct (Hitot cov_func lik_func w2) as (gp & w3 & Hgp).
  destruct (Hotot w3) as (opt & w4 & Hop).
  exists cov_func, lik_func, gp, opt, w1, w2, w3, w4.
  repeat (split; [first [exact Hruns | exact Hlik | exact Hgp | exact Hop
                        | exact (runs_length _ _ _ _ _ Hruns)] |]).
  unfold construct_from_flags.
  erewrite then_Ok; cycle 1.
  { rewrite <- Hrun. apply comprehension_ext. intros w0.
    unfold getitem, getattr. rewrite Hcov, then_lift_Ok, Hk.
    reflexivity. }
  unfold getitem, getattr.
  rewrite Hl, then_lift_Ok, (then_Ok _ _ _ _ _ Hlik).
  rewrite Hinf, then_lift_Ok, Hi, then_lift_Ok, (then_Ok _ _ _ _ _ Hgp).
  rewrite Hopt, then_lift_Ok, Ho, then_lift_Ok, Hlr, then_lift_Ok.
  rewrite (then_Ok _ _ _ _ _ Hop), sum_lists_concat.
  reflexivity.
Qed.

End ConstructFromFlags.

(** *** A concrete configuration *)

(** The state of the process counts the objects created so far; a kernel
    is its number, and its only parameter is that number. *)
Definition demo_flags : gmap string TrainHelper.flag_value :=
  list_to_map [("cov", TrainHelper.FStr "SquaredExponential");
               ("inf", TrainHelper.FStr "Variational");
               ("optimizer", TrainHelper.FStr "AdamOptimizer");
               ("lr", TrainHelper.FFloat (Fin 1))]%string.

Definition demo_kernel (_ : nat) (_ : gmap string TrainHelper.flag_value)
    : TrainHelper.action nat nat :=
  fun w => Ok (w, S w).

Definition demo_likelihood (_ : gmap string TrainHelper.flag_value)
    : TrainHelper.action nat unit :=
  fun w => Ok (tt, w).

Definition demo_strategy (ks : list nat) (_ : unit) (_ : nat) (_ : unit)
    (_ : gmap string TrainHelper.flag_value) : TrainHelper.action nat (list nat) :=
  fun w => Ok (ks, w).

Definition demo_optimizer (lr : TrainHelper.flag_value)
    : TrainHelper.action nat TrainHelper.flag_value :=
  fun w => Ok (lr, w).

Definition demo_construct (d : nat)
    : TrainHelper.action nat (list nat * list nat * TrainHelper.flag_value) :=
  TrainHelper.construct_from_flags
    {["SquaredExponential"%string := demo_kernel]}
    {["LikelihoodGaussian"%string := demo_likelihood]}
    {["Variational"%string := demo_strategy]}
    {["AdamOptimizer"%string := demo_optimizer]}
    (fun k : nat => [k; (k + 100)%nat]) (fun _ : unit => [7%nat])
    demo_flags 4 d "LikelihoodGaussian" tt 50.

Lemma construct_from_flags_hyper_params_witness :
  exists cov_func lik_func gp opt w1 w2 w3 w4,
    runs nat (demo_kernel 4 demo_flags) 3 0%nat cov_func w1
    /\ List.length cov_func = 3%nat
    /\ demo_likelihood demo_flags w1 = Ok (lik_func, w2)
    /\ demo_strategy cov_func lik_func 50 tt demo_flags w2 = Ok (gp, w3)
    /\ demo_optimizer (TrainHelper.FFloat (Fin 1)) w3 = Ok (opt, w4)
    /\ demo_construct 3 0%nat
       = Ok ((gp,
              [7%nat] ++ List.concat (List.map (fun k : nat => [k; (k + 100)%nat])
                                        cov_func),
              opt), w4).
Proof.
  apply (construct_from_flags_hyper_params nat nat unit (list nat)
           TrainHelper.flag_value nat unit
           {["SquaredExponential"%string := demo_kernel]}
           {["LikelihoodGaussian"%string := demo_likelihood]}
           {["Variational"%string := demo_strategy]}
           {["AdamOptimizer"%string := demo_optimizer]}
           (fun k : nat => [k; (k + 100)%nat]) (fun _ : unit => [7%nat])
           demo_flags 4 3 "LikelihoodGaussian" tt 50 0%nat
           "SquaredExponential" "Variational" "AdamOptimizer"
           (TrainHelper.FFloat (Fin 1))
           demo_kernel demo_likelihood demo_strategy demo_optimizer);
    try reflexivity;
    try (intros w; eexists _, _; reflexivity);
    try (intros ks l w; eexists _, _; reflexivity).
Defined.

(** The concrete configuration with three outputs: kernels 0, 1 and 2 are
    created, and the hyperparameters are those of the likelihood followed
    by those of kernel 0, of kernel 1 and of kernel 2. *)
Example demo_construct_three :
  demo_construct 3 0%nat
  = Ok (([0; 1; 2]%nat, [7; 0; 100; 1; 101; 2; 102]%nat,
         TrainHelper.FFloat (Fin 1)), 3%nat).
Proof. reflexivity. Qed.

(** ** [construct_from_flags]: configurations that do not resolve *)

Section ConstructFromFlagsErrors.

Import TrainHelper.

Variables World Kernel Likelihood GP Optimizer Param Inducing : Type.
Variable cov : gmap string (nat -> gmap string flag_value -> action World Kernel).
Variable lik : gmap string (gmap string flag_value -> action World Likelihood).
Variable inf : gmap string (list Kernel -> Likelihood -> nat -> Inducing ->
                            gmap string flag_value -> action World GP).
Variable tf_train : gmap string (flag_value -> action World Optimizer).
Variable kernel_get_params : Kernel -> list Param.
Variable lik_get_params : Likelihood -> list Param.

Abbreviation construct :=
  (construct_from_flags cov lik inf tf_train kernel_get_params lik_get_params).

Lemma then_Raise {A B} (c : action World A) (k : A -> action World B)
    (w : World) (e : Py.exn) :
  c w = Raise e -> then_ c k w = Raise e.
Proof. intros H. unfold then_. now rewrite H. Qed.

(** With at least one output dimension and no flag ['cov'], the call
    raises [KeyError] for ['cov'], whatever the other flags and the
    packages hold. *)
Theorem construct_from_flags_missing_cov
    (flags : gmap string flag_value) (input_dim d : nat) (lname : string)
    (inducing : Inducing) (num_train : nat) (w : World) :
  flags !! "cov"%string = None ->
  construct flags input_dim (S d) lname inducing num_train w
  = Raise (KeyError "cov").
Proof.
  intros Hcov. unfold construct_from_flags.
  apply then_Raise. cbn [comprehension].
  apply then_Raise. apply then_Raise.
  unfold lift, getitem. now rewrite Hcov.
Qed.

(** With at least one output dimension and a kernel name that the package
    [cov] does not define, the call raises [AttributeError] for that
    name. *)
Theorem construct_from_flags_unknown_kernel
    (flags : gmap string flag_value) (input_dim d : nat) (lname : string)
    (inducing : Inducing) (num_train : nat) (w : World) (kname : string) :
  flags !! "cov"%string = Some (FStr kname) ->
  cov !! kname = None ->
  construct flags input_dim (S d) lname inducing num_train w
  = Raise (AttributeError kname).
Proof.
  intros Hcov Hk. unfold construct_from_flags.
  apply then_Raise. cbn [comprehension].
  apply then_Raise. unfold getitem. rewrite Hcov.
  rewrite (then_lift_Ok World). apply then_Raise.
  unfold lift, getattr. now rewrite Hk.
Qed.


(** With no output dimension the flag ['cov'] and the package [cov] are
    not consulted: no kernel is created, the inference strategy receives
    the empty list, and the hyperparameters are those of the likelihood. *)
Theorem construct_from_flags_no_output
    (flags : gmap string flag_value) (input_dim : nat) (lname : string)
    (inducing : Inducing) (num_train : nat) (w : World)
    (iname oname : string) (lr : flag_value)
    (lctor : gmap string flag_value -> action World Likelihood)
    (ictor : list Kernel -> Likelihood -> nat -> Inducing ->
             gmap string flag_value -> action World GP)
    (octor : flag_value -> action World Optimizer)
    (lik_func : Likelihood) (gp : GP) (opt : Optimizer) (w1 w2 w3 : World) :
  lik !! lname = Some lctor ->
  lctor flags w = Ok (lik_func, w1) ->
  flags !! "inf"%string = Some (FStr iname) ->
  inf !! iname = Some ictor ->
  ictor [] lik_func num_train inducing flags w1 = Ok (gp, w2) ->
  flags !! "optimizer"%string = Some (FStr oname) ->
  tf_train !! oname = Some octor ->
  flags !! "lr"%string = Some lr ->
  octor lr w2 = Ok (opt, w3) ->
  construct flags input_dim 0 lname inducing num_train w
  = Ok ((gp, lik_get_params lik_func, opt), w3).
Proof.
  intros Hl Hlik Hinf Hi Hgp Hopt Ho Hlr Hop.
  unfold construct_from_flags. cbn [comprehension].
  change (then_ (ret []) ?k w) with (k [] w). cbn beta.
  unfold getitem, getattr.
  rewrite Hl, (then_lift_Ok World), (then_Ok World _ _ _ _ _ Hlik).
  rewrite Hinf, (then_lift_Ok World), Hi, (then_lift_Ok World),
    (then_Ok World _ _ _ _ _ Hgp).
  rewrite Hopt, (then_lift_Ok World), Ho, (then_lift_Ok World), Hlr,
    (then_lift_Ok World).
  rewrite (then_Ok World _ _ _ _ _ Hop). cbn [List.map].
  unfold sum_lists. cbn [fold_left]. now rewrite app_nil_r.
Qed.

End ConstructFromFlagsErrors.

(** The concrete configuration, assembled from other flags. *)
Definition demo_construct_with (flags : gmap string TrainHelper.flag_value)
    (lname : string) (d : nat)
    : TrainHelper.action nat (list nat * list nat * TrainHelper.flag_value) :=
  TrainHelper.construct_from_flags
    {["SquaredExponential"%string := demo_kernel]}
    {["LikelihoodGaussian"%string := demo_likelihood]}
    {["Variational"%string := demo_strategy]}
    {["AdamOptimizer"%string := demo_optimizer]}
    (fun k : nat => [k; (k + 100)%nat]) (fun _ : unit => [7%nat])
    flags 4 d lname tt 50.

Lemma construct_from_flags_missing_cov_witness :
  demo_construct_with (delete "cov"%string demo_flags) "LikelihoodGaussian" 2 0%nat
  = Raise (KeyError "cov").
Proof.
  apply (construct_from_flags_missing_cov nat nat unit (list nat)
           TrainHelper.flag_value nat unit).
  reflexivity.
Defined.

Lemma construct_from_flags_unknown_kernel_witness :
  demo_construct_with (<["cov"%string := TrainHelper.FStr "Matern"]> demo_flags)
    "LikelihoodGaussian" 2 0%nat
  = Raise (AttributeError "Matern").
Proof.
  apply (construct_from_flags_unknown_kernel nat nat unit (list nat)
           TrainHelper.flag_value nat unit); reflexivity.
Defined.


Lemma construct_from_flags_no_output_witness :
  demo_construct_with (delete "cov"%string demo_flags) "LikelihoodGaussian" 0 5%nat
  = Ok (([], [7%nat], TrainHelper.FFloat (Fin 1)), 5%nat).
Proof.
  apply (construct_from_flags_no_output nat nat unit (list nat)
           TrainHelper.flag_value nat unit
           {["SquaredExponential"%string := demo_kernel]}
           {["LikelihoodGaussian"%string := demo_likelihood]}
           {["Variational"%string := demo_strategy]}
           {["AdamOptimizer"%string := demo_optimizer]}
           (fun k : nat => [k; (k + 100)%nat]) (fun _ : unit => [7%nat])
           (delete "cov"%string demo_flags) 4 "LikelihoodGaussian" tt 50 5%nat
           "Variational" "AdamOptimizer" (TrainHelper.FFloat (Fin 1))
           demo_likelihood demo_strategy demo_optimizer tt [] _ 5%nat 5%nat 5%nat);
    reflexivity.
Defined.

(** ** [LogReg.call] and the shapes that [inference] accepts *)

Module Prediction.

(** [tf.nn.sigmoid] on one entry. *)
Definition sigmoid (a : tfloat) : tfloat :=
  match a with
  | Fin x => Fin (/ (1 + Rtrigo_def.exp (- x)))
  | PInf => Fin 1
  | NInf => Fin 0
  | NaN => NaN
  end.

Definition map_tensor2 (f : tfloat -> tfloat) (t : tensor2) : tensor2 :=
  {| ncols := ncols t; rows := List.map (List.map f) (rows t) |}.

(** [tf.zeros_like] *)
Definition zeros_like (t : tensor2) : tensor2 := map_tensor2 (fun _ => Fin 0) t.

(** [LogReg.call]: the predicted probability of label 1 and a variance
    that is zero everywhere. *)
Definition LogReg_call {Args Inputs : Type}
    (self : LogisticRegression.instance Args Inputs) (inputs : Inputs)
    : result (tensor2 * tensor2) :=
  let! logits := LogisticRegression._model self inputs in
  let pred := map_tensor2 sigmoid logits in
  Ok (pred, zeros_like pred).

(** The likelihood of a binary label under a predicted probability of
    label 1. *)
Definition likelihood_of (y : Z) (p : tfloat) : tfloat :=
  if (y =? 1)%Z then p else TF.sub (Fin 1) p.

End Prediction.

Section PredictionFacts.

Import LogisticRegression Prediction.

Variable Args : Type.
Variable Features : Type.
Variable Inputs : Type.
Variable sensitive : Features -> tensor2.
Variable construct_input : Features -> Args -> result Inputs.
Variable debiasing_params_target_rate : Args -> result debias_tensor.
Variable debiasing_params_target_tpr : Args -> result debias_tensor.

Abbreviation log_reg' := (LogReg_inference construct_input).
Abbreviation fair_log_reg' :=
  (FairLogReg_inference sensitive construct_input
     debiasing_params_target_rate debiasing_params_target_tpr).
Abbreviation debias_of' :=
  (_log_debiasing_parameters debiasing_params_target_rate
     debiasing_params_target_tpr).

Lemma sigmoid_range (x : R) :
  0 <= / (1 + Rtrigo_def.exp (- x)) <= 1.
Proof.
  pose proof (exp_pos (- x)) as He. split.
  - left. apply Rinv_0_lt_compat. lra.
  - left. rewrite <- Rinv_1 at 2. apply Rinv_lt_contravar; lra.
Qed.

(** A finite entry and its image, a probability. *)
Definition probability_of (a p : tfloat) : Prop :=
  exists x, a = Fin x /\ p = Fin (/ (1 + Rtrigo_def.exp (- x)))
            /\ 0 <= / (1 + Rtrigo_def.exp (- x)) <= 1.

Lemma sigmoid_rows (l : list (list tfloat)) :
  Forall (Forall (fun a => TF.is_finite a = true)) l ->
  Forall2 (Forall2 probability_of) l (List.map (List.map sigmoid) l).
Proof.
  induction 1 as [| r l Hr _ IH]; cbn [List.map]; constructor; [| exact IH].
  clear IH. induction Hr as [| a r Ha _ IHr]; cbn [List.map]; constructor;
    [| exact IHr].
  destruct a as [x | | |]; try discriminate.
  exists x. repeat split; apply sigmoid_range.
Qed.

Lemma zero_rows (l : list (list tfloat)) :
  Forall (Forall (fun v => v = Fin 0))
    (List.map (List.map (fun _ : tfloat => Fin 0)) l).
Proof.
  induction l as [| r l IH]; cbn [List.map]; constructor; [| exact IH].
  induction r as [| a r IHr]; cbn [List.map]; constructor; [reflexivity | exact IHr].
Qed.

(** When the dense layer returns finite logits, [LogReg.call] returns a
    mean of the shape of the logits whose entries are the logistic
    function of the logits, between 0 and 1, and a variance of the same
    shape that is zero everywhere. *)
Theorem call_returns_probabilities
    (self : instance Args Inputs) (inputs : Inputs) (logits : tensor2) :
  _model self inputs = Ok logits ->
  Forall (Forall (fun a => TF.is_finite a = true)) (rows logits) ->
  exists pred var,
    LogReg_call self inputs = Ok (pred, var)
    /\ ncols pred = ncols logits /\ ncols var = ncols logits
    /\ Forall2 (Forall2 probability_of) (rows logits) (rows pred)
    /\ List.map (@List.length tfloat) (rows var)
       = List.map (@List.length tfloat) (rows logits)
    /\ Forall (Forall (fun v => v = Fin 0)) (rows var).
Proof.
  intros Hmodel Hfin. unfold LogReg_call. rewrite Hmodel. cbn [Py.bind].
  eexists _, _. split; [reflexivity |].
  cbn [zeros_like map_tensor2 ncols rows].
  repeat split.
  - now apply sigmoid_rows.
  - rewrite !List.map_map. apply List.map_ext. intros r.
    now rewrite !length_map.
  - apply zero_rows.
Qed.

(** The negative mean log-likelihood of the labels of a batch under the
    probabilities that [call] predicts. *)
Definition bernoulli_nll (batch : list example) : tfloat :=
  TF.neg (TF.reduce_mean
            (List.map (fun ex => TF.log (likelihood_of (label ex)
                                           (sigmoid (logit ex)))) batch)).

Lemma log_likelihood_label_1 (x : R) :
  TF.log (likelihood_of 1 (sigmoid (Fin x))) = TF.log_sigmoid (Fin x).
Proof.
  cbn [likelihood_of sigmoid Z.eqb Pos.eqb].
  pose proof (exp_pos (- x)) as He.
  rewrite log_Fin_pos by (apply Rinv_0_lt_compat; lra).
  rewrite log_sigmoid_Fin. f_equal.
  rewrite ln_Rinv by lra. f_equal. f_equal. lra.
Qed.

Lemma one_minus_sigmoid (x : R) :
  1 + - / (1 + Rtrigo_def.exp (- x)) = / (Rtrigo_def.exp x + 1).
Proof.
  rewrite exp_Ropp. pose proof (exp_pos x) as He.
  set (e := Rtrigo_def.exp x) in *. field. split; lra.
Qed.

Lemma log_likelihood_label_0 (x : R) :
  TF.log (likelihood_of 0 (sigmoid (Fin x))) = TF.log_sigmoid (TF.neg (Fin x)).
Proof.
  rewrite log_sigmoid_neg_Fin.
  cbn [likelihood_of sigmoid Z.eqb TF.sub TF.neg TF.add].
  rewrite one_minus_sigmoid.
  pose proof (exp_pos x) as He.
  rewrite log_Fin_pos by (apply Rinv_0_lt_compat; lra).
  f_equal. now rewrite ln_Rinv by lra.
Qed.

Lemma baseline_regr_loss_bernoulli (G : nat) (batch : list example) :
  Forall (binary_example G) batch ->
  baseline_regr_loss batch = bernoulli_nll batch.
Proof.
  intros Hb. unfold baseline_regr_loss, bernoulli_nll. do 2 f_equal.
  induction Hb as [| ex batch Hex _ IH]; cbn [List.map]; [reflexivity |].
  rewrite IH. f_equal.
  destruct Hex as ((x & Hx) & [Hy | Hy] & _); rewrite Hx, Hy.
  - now rewrite cross_entropy_label_0, log_likelihood_label_0.
  - now rewrite cross_entropy_label_1, log_likelihood_label_1.
Qed.

(** The loss of [LogReg.inference] is the negative mean log-likelihood of
    the observed labels under the probabilities that [LogReg.call]
    predicts for the same inputs, plus the regularization term.  The batch
    has binary labels, finite logits and any size but one. *)
Theorem baseline_loss_is_likelihood_of_call
    (self : instance Args Inputs) (features : Features) (outputs : tensor2)
    (batch : list example) (inputs : Inputs) (l2 : tfloat) (G : nat)
    (is_train : bool) :
  outputs = column (List.map (fun ex => Fin (IZR (label ex))) batch) ->
  construct_input features (args self) = Ok inputs ->
  _model self inputs = Ok (column (List.map logit batch)) ->
  _l2_loss self = Ok l2 ->
  Forall (binary_example G) batch ->
  List.length batch <> 1%nat ->
  LogReg_call self inputs
  = Ok (column (List.map (fun ex => sigmoid (logit ex)) batch),
        column (List.map (fun _ => Fin 0) batch))
  /\ log_reg' self features outputs is_train
     = Ok {| loss := Scalar (TF.add (bernoulli_nll batch) l2);
             regr_loss := Scalar (bernoulli_nll batch);
             l2_loss := l2 |}.
Proof.
  intros Hout Hin Hmodel Hl2 Hb Hlen. split.
  - unfold LogReg_call. rewrite Hmodel. cbn [Py.bind].
    unfold zeros_like, map_tensor2, column. cbn [ncols rows].
    now rewrite !List.map_map.
  - rewrite (baseline_inference_loss Args Features Inputs construct_input
               self features outputs batch inputs l2 is_train
               Hout Hin Hmodel Hl2 Hlen).
    now rewrite (baseline_regr_loss_bernoulli G batch Hb).
Qed.

(** On a batch of one example [LogReg.inference] raises: [tf.squeeze]
    leaves a scalar, over which [tf.reduce_mean] cannot reduce the last
    axis.  [FairLogReg.inference] in training accepts the same batch. *)
Theorem single_example_batch
    (self : instance Args Inputs) (features : Features) (outputs : tensor2)
    (ex : example) (inputs : Inputs) (log_debias : debias_tensor)
    (l2 : tfloat) (is_train : bool) :
  sensitive features = column [Fin (IZR (group ex))] ->
  outputs = column [Fin (IZR (label ex))] ->
  construct_input features (args self) = Ok inputs ->
  _model self inputs = Ok (column [logit ex]) ->
  debias_of' self = Ok log_debias ->
  _l2_loss self = Ok l2 ->
  in_range log_debias (label ex) (group ex) ->
  log_reg' self features outputs is_train
  = Raise (InvalidArgument
             "Invalid reduction dimension -1 for input with 0 dimensions")
  /\ fair_log_reg' self features outputs true
     = Ok {| loss := Scalar (TF.add (library_regr_loss log_debias [ex]) l2);
             regr_loss := Scalar (library_regr_loss log_debias [ex]);
             l2_loss := l2 |}.
Proof.
  intros Hsens Hout Hin Hmodel Hdeb Hl2 Hrange. split.
  - unfold LogReg_inference, _get_inputs.
    rewrite Hin. cbn [Py.bind]. rewrite Hmodel. cbn [Py.bind].
    rewrite Hout. unfold sigmoid_cross_entropy, column.
    cbn [ncols rows List.map List.length Nat.eqb andb Py.bind combine].
    rewrite Hl2. reflexivity.
  - apply (fair_inference_training_steps Args Features Inputs sensitive
             construct_input debiasing_params_target_rate
             debiasing_params_target_tpr self features outputs [ex] inputs
             log_debias l2 Hsens Hout Hin Hmodel Hdeb Hl2).
    now constructor.
Qed.

(** The loss of one example with several outputs: the mean over the
    outputs of the cross entropy. *)
Definition per_example_loss (labels logits : list tfloat) : tfloat :=
  TF.neg (TF.reduce_mean
            (List.map TF.neg
               (List.map (fun zx => TF.sigmoid_cross_entropy_with_logits
                                      (fst zx) (snd zx))
                  (combine labels logits)))).

(** With several outputs and several examples, the loss that
    [LogReg.inference] returns is not a scalar: it has one entry for every
    example, the mean over the outputs of the cross entropy of the example
    plus the regularization term. *)
Theorem baseline_loss_with_several_outputs
    (self : instance Args Inputs) (features : Features)
    (outputs logits : tensor2) (inputs : Inputs) (l2 : tfloat)
    (is_train : bool) :
  construct_input features (args self) = Ok inputs ->
  _model self inputs = Ok logits ->
  _l2_loss self = Ok l2 ->
  ncols outputs = ncols logits ->
  List.length (rows outputs) = List.length (rows logits) ->
  ncols logits <> 1%nat ->
  List.length (rows logits) <> 1%nat ->
  let v := List.map (fun zx => per_example_loss (fst zx) (snd zx))
             (combine (rows outputs) (rows logits)) in
  log_reg' self features outputs is_train
  = Ok {| loss := Vector (List.map (fun x => TF.add x l2) v);
          regr_loss := Vector v;
          l2_loss := l2 |}
  /\ List.length v = List.length (rows logits).
Proof.
  intros Hin Hmodel Hl2 Hcols Hrows HK HB v. split.
  - unfold LogReg_inference, _get_inputs.
    rewrite Hin. cbn [Py.bind]. rewrite Hmodel. cbn [Py.bind].
    unfold sigmoid_cross_entropy.
    rewrite Hcols, Hrows, !Nat.eqb_refl. cbn [andb Py.bind].
    rewrite Hl2. cbn [Py.bind].
    unfold squeeze_reduce_mean, neg_tensor2. cbn [ncols rows].
    rewrite !length_map, length_combine, Hrows, Nat.min_id.
    destruct (Nat.eqb_spec (List.length (rows logits)) 1) as [? | _];
      [contradiction |].
    destruct (Nat.eqb_spec (ncols logits) 1) as [? | _]; [contradiction |].
    cbn [Py.bind neg_tensor add_scalar]. subst v. unfold per_example_loss.
    now rewrite !List.map_map.
  - subst v. now rewrite length_map, length_combine, Hrows, Nat.min_id.
Qed.

(** In training [FairLogReg.inference] accepts one output only: when the
    sensitive attribute or the labels do not have exactly one column, it
    raises before the model is evaluated. *)
Theorem fair_training_needs_one_column
    (self : instance Args Inputs) (features : Features) (outputs : tensor2) :
  ncols (sensitive features) <> 1%nat \/ ncols outputs <> 1%nat ->
  fair_log_reg' self features outputs true
  = Raise (InvalidArgument "Can not squeeze dim[1], expected a dimension of 1").
Proof.
  intros H. unfold FairLogReg_inference. cbn [negb].
  unfold TF.squeeze_last at 1.
  destruct (Nat.eqb_spec (ncols (sensitive features)) 1) as [Hs | Hs];
    [| reflexivity].
  cbn [Py.bind]. unfold TF.squeeze_last at 1.
  destruct (Nat.eqb_spec (ncols outputs) 1) as [Ho | Ho]; [| reflexivity].
  destruct H; contradiction.
Qed.

Lemma reduce_mean_Fin (l : list R) :
  l <> [] ->
  TF.reduce_mean (List.map Fin l) = Fin (Rsum l / INR (List.length l)).
Proof.
  intros Hne. unfold TF.reduce_mean.
  rewrite reduce_sum_Fin, length_map.
  destruct l as [| a l]; [contradiction | reflexivity].
Qed.

Lemma Rsum_nonpos (l : list R) : Forall (fun a => a <= 0) l -> Rsum l <= 0.
Proof.
  induction 1 as [| a l Ha _ IH]; cbn [Rsum fold_right]; [lra |].
  fold (Rsum l). lra.
Qed.

Lemma softplus_nonneg (x : R) : 0 <= ln (Rtrigo_def.exp x + 1).
Proof.
  pose proof (exp_pos x) as He. rewrite <- ln_1. left.
  apply ln_increasing; lra.
Qed.

(** The data term of [LogReg.inference] is not negative: on a batch with
    binary labels and finite logits, of size two or more, the loss is the
    regularization term plus a non-negative number. *)
Theorem baseline_data_term_nonnegative
    (self : instance Args Inputs) (features : Features) (outputs : tensor2)
    (batch : list example) (inputs : Inputs) (l2 : tfloat) (G : nat)
    (is_train : bool) :
  outputs = column (List.map (fun ex => Fin (IZR (label ex))) batch) ->
  construct_input features (args self) = Ok inputs ->
  _model self inputs = Ok (column (List.map logit batch)) ->
  _l2_loss self = Ok l2 ->
  Forall (binary_example G) batch ->
  (2 <= List.length batch)%nat ->
  exists r,
    0 <= r
    /\ log_reg' self features outputs is_train
       = Ok {| loss := Scalar (TF.add (Fin r) l2);
               regr_loss := Scalar (Fin r);
               l2_loss := l2 |}.
Proof.
  intros Hout Hin Hmodel Hl2 Hb Hlen.
  rewrite (baseline_inference_loss Args Features Inputs construct_input
             self features outputs batch inputs l2 is_train
             Hout Hin Hmodel Hl2) by lia.
  assert (Hterms : exists l,
             List.map (fun ex => TF.neg (TF.sigmoid_cross_entropy_with_logits
                                           (Fin (IZR (label ex))) (logit ex)))
               batch = List.map Fin l
             /\ Forall (fun a => a <= 0) l
             /\ List.length l = List.length batch).
  { clear - Hb. induction Hb as [| ex batch Hex _ IH].
    - exists []. repeat split. constructor.
    - destruct IH as (l & Hl & Hneg & Hlen').
      destruct Hex as ((x & Hx) & [Hy | Hy] & _).
      + exists (- ln (Rtrigo_def.exp x + 1) :: l). cbn [List.map].
        rewrite Hx, Hy, cross_entropy_label_0, log_sigmoid_neg_Fin, Hl.
        repeat split; [| cbn; lia].
        constructor; [| exact Hneg]. pose proof (softplus_nonneg x). lra.
      + exists (- ln (Rtrigo_def.exp (- x) + 1) :: l). cbn [List.map].
        rewrite Hx, Hy, cross_entropy_label_1, log_sigmoid_Fin, Hl.
        repeat split; [| cbn; lia].
        constructor; [| exact Hneg]. pose proof (softplus_nonneg (- x)). lra. }
  destruct Hterms as (l & Hl & Hneg & Hlen').
  unfold baseline_regr_loss. rewrite Hl.
  rewrite reduce_mean_Fin by (intros ->; cbn in Hlen'; lia).
  cbn [TF.neg]. eexists. split; [| reflexivity].
  pose proof (Rsum_nonpos l Hneg) as Hs.
  assert (Hn : 0 < INR (List.length l)) by (apply lt_0_INR; lia).
  assert (Hq : Rsum l / INR (List.length l) <= 0).
  { unfold Rdiv. pose proof (Rinv_0_lt_compat _ Hn). nra. }
  lra.
Qed.

Lemma Rsum_const {A} (c : R) (l : list A) :
  Rsum (List.map (fun _ : A => c) l) = INR (List.length l) * c.
Proof.
  induction l as [| a l IH]; [cbn; lra |].
  cbn [List.map Rsum fold_right]. fold (Rsum (List.map (fun _ : A => c) l)).
  rewrite IH. cbn [List.length]. rewrite S_INR. lra.
Qed.

Lemma reduce_mean_const {A} (c : R) (l : list A) :
  l <> [] -> TF.reduce_mean (List.map (fun _ : A => Fin c) l) = Fin c.
Proof.
  intros Hne.
  replace (List.map (fun _ : A => Fin c) l)
    with (List.map Fin (List.map (fun _ : A => c) l))
    by (now rewrite List.map_map).
  rewrite reduce_mean_Fin by (destruct l; [contradiction | discriminate]).
  rewrite Rsum_const, length_map. f_equal.
  assert (Hn : 0 < INR (List.length l))
    by (apply lt_0_INR; destruct l; [contradiction | cbn; lia]).
  field. lra.
Qed.

(** An example whose correction is the same finite number [c] for both
    observed labels. *)
Definition uniform_at (log_debias : debias_tensor) (c : R) (ex : example) : Prop :=
  in_range log_debias (label ex) (group ex)
  /\ debias_entry log_debias (label ex) (group ex) = (Fin c, Fin c)
  /\ exists x, logit ex = Fin x.

Lemma combined_uniform (log_debias : debias_tensor) (c : R) (ex : example) :
  uniform_at log_debias c ex ->
  TF.reduce_logsumexp [weighted0 log_debias ex; weighted1 log_debias ex] = Fin c.
Proof.
  intros (_ & Hd & x & Hx). unfold weighted0, weighted1.
  rewrite Hd, Hx, log_sigmoid_neg_Fin, log_sigmoid_Fin. cbn [fst snd TF.add].
  rewrite reduce_logsumexp_pair by reflexivity.
  rewrite spec_combined_Fin, !exp_plus, <- Rmult_plus_distr_l, sigmoid_sum.
  now rewrite Rmult_1_r, ln_exp.
Qed.

(** When the correction is the same finite number [c] for both observed
    labels of every example, the data term of the fair training loss is
    [- c] whatever the logits are: the loss does not depend on the
    model. *)
Theorem fair_training_uniform_correction
    (self : instance Args Inputs) (features : Features) (outputs : tensor2)
    (batch : list example) (inputs : Inputs) (log_debias : debias_tensor)
    (l2 : tfloat) (c : R) :
  sensitive features = column (List.map (fun ex => Fin (IZR (group ex))) batch) ->
  outputs = column (List.map (fun ex => Fin (IZR (label ex))) batch) ->
  construct_input features (args self) = Ok inputs ->
  _model self inputs = Ok (column (List.map logit batch)) ->
  debias_of' self = Ok log_debias ->
  _l2_loss self = Ok l2 ->
  Forall (uniform_at log_debias c) batch ->
  batch <> [] ->
  fair_log_reg' self features outputs true
  = Ok {| loss := Scalar (TF.add (Fin (- c)) l2);
          regr_loss := Scalar (Fin (- c));
          l2_loss := l2 |}.
Proof.
  intros Hsens Hout Hin Hmodel Hdeb Hl2 Hu Hne.
  rewrite (fair_inference_training_steps Args Features Inputs sensitive
             construct_input debiasing_params_target_rate
             debiasing_params_target_tpr self features outputs batch inputs
             log_debias l2 Hsens Hout Hin Hmodel Hdeb Hl2)
    by (eapply List.Forall_impl; [| exact Hu]; intros ex Hex; apply Hex).
  assert (Hregr : library_regr_loss log_debias batch = Fin (- c)).
  { unfold library_regr_loss.
    replace (List.map TF.reduce_logsumexp _)
      with (List.map (fun _ : example => Fin c) batch).
    - now rewrite (reduce_mean_const c batch Hne).
    - clear - Hu. induction Hu as [| ex batch Hex _ IH]; cbn [List.map];
        [reflexivity |].
      now rewrite IH, (combined_uniform log_debias c ex Hex). }
  now rewrite Hregr.
Qed.

End PredictionFacts.

(** *** Concrete models for the shapes above *)

Definition demo_model (logits : tensor2) (k : LogisticRegression.klass)
    : LogisticRegression.instance unit unit :=
  LogisticRegression.Instance unit unit k tt (fun _ => Ok logits) [Fin 0].

Definition demo_two_outputs : tensor2 :=
  {| ncols := 2; rows := [[Fin 0; Fin 1]; [Fin 1; Fin 0]; [Fin 0; Fin 0]] |}.

Section PredictionWitnesses.

Import LogisticRegression Prediction.

Lemma call_returns_probabilities_witness :
  exists pred var,
    LogReg_call (demo_model demo_two_outputs LogReg) tt = Ok (pred, var)
    /\ ncols pred = ncols demo_two_outputs /\ ncols var = ncols demo_two_outputs
    /\ Forall2 (Forall2 probability_of) (rows demo_two_outputs) (rows pred)
    /\ List.map (@List.length tfloat) (rows var)
       = List.map (@List.length tfloat) (rows demo_two_outputs)
    /\ Forall (Forall (fun v => v = Fin 0)) (rows var).
Proof.
  apply (call_returns_probabilities unit unit
           (demo_model demo_two_outputs LogReg) tt demo_two_outputs).
  - reflexivity.
  - repeat constructor.
Defined.

Lemma baseline_loss_is_likelihood_of_call_witness :
  LogReg_call (demo_self LogReg) tt
  = Ok (column (List.map (fun ex => sigmoid (logit ex)) demo_batch),
        column (List.map (fun _ => Fin 0) demo_batch))
  /\ demo_baseline LogReg false
     = Ok {| loss := Scalar (TF.add (bernoulli_nll demo_batch) (Fin 0));
             regr_loss := Scalar (bernoulli_nll demo_batch);
             l2_loss := Fin 0 |}.
Proof.
  apply (baseline_loss_is_likelihood_of_call unit unit unit demo_construct_input
           (demo_self LogReg) tt demo_outputs demo_batch tt (Fin 0) 1 false);
    try reflexivity.
  - apply demo_batch_binary.
  - discriminate.
Defined.

Lemma single_example_batch_witness :
  LogReg_inference demo_construct_input (demo_model (column [Fin 0]) FairLogReg)
    tt (column [Fin 1]) true
  = Raise (InvalidArgument
             "Invalid reduction dimension -1 for input with 0 dimensions")
  /\ FairLogReg_inference (fun _ : unit => column [Fin 0]) demo_construct_input
       (fun _ => Ok (identity_debias 1)) (fun _ => Ok (identity_debias 1))
       (demo_model (column [Fin 0]) FairLogReg) tt (column [Fin 1]) true
     = Ok {| loss := Scalar (TF.add (library_regr_loss (identity_debias 1)
                                       [Example (Fin 0) 1 0]) (Fin 0));
             regr_loss := Scalar (library_regr_loss (identity_debias 1)
                                    [Example (Fin 0) 1 0]);
             l2_loss := Fin 0 |}.
Proof.
  apply (single_example_batch unit unit unit (fun _ : unit => column [Fin 0])
           demo_construct_input
           (fun _ => Ok (identity_debias 1)) (fun _ => Ok (identity_debias 1))
           (demo_model (column [Fin 0]) FairLogReg) tt (column [Fin 1])
           (Example (Fin 0) 1 0) tt (identity_debias 1) (Fin 0) true);
    try reflexivity.
  unfold in_range. simpl. lia.
Defined.

Lemma baseline_loss_with_several_outputs_witness :
  let v := List.map (fun zx => per_example_loss (fst zx) (snd zx))
             (combine (rows demo_two_outputs) (rows demo_two_outputs)) in
  LogReg_inference demo_construct_input (demo_model demo_two_outputs LogReg)
    tt demo_two_outputs true
  = Ok {| loss := Vector (List.map (fun x => TF.add x (Fin 0)) v);
          regr_loss := Vector v;
          l2_loss := Fin 0 |}
  /\ List.length v = List.length (rows demo_two_outputs).
Proof.
  apply (baseline_loss_with_several_outputs unit unit unit demo_construct_input
           (demo_model demo_two_outputs LogReg) tt demo_two_outputs
           demo_two_outputs tt (Fin 0) true); try reflexivity;
    cbn; discriminate.
Defined.

Lemma fair_training_needs_one_column_witness :
  FairLogReg_inference demo_sensitive demo_construct_input
    (fun _ => Ok (zero_debias 1)) (fun _ => Ok (zero_debias 1))
    (demo_model demo_two_outputs FairLogReg) tt demo_two_outputs true
  = Raise (InvalidArgument "Can not squeeze dim[1], expected a dimension of 1").
Proof.
  apply (fair_training_needs_one_column unit unit unit demo_sensitive
           demo_construct_input (fun _ => Ok (zero_debias 1))
           (fun _ => Ok (zero_debias 1))
           (demo_model demo_two_outputs FairLogReg) tt demo_two_outputs).
  right. cbn. discriminate.
Defined.

Lemma baseline_data_term_nonnegative_witness :
  exists r,
    0 <= r
    /\ demo_baseline LogReg true
       = Ok {| loss := Scalar (TF.add (Fin r) (Fin 0));
               regr_loss := Scalar (Fin r);
               l2_loss := Fin 0 |}.
Proof.
  apply (baseline_data_term_nonnegative unit unit unit demo_construct_input
           (demo_self LogReg) tt demo_outputs demo_batch tt (Fin 0) 1 true);
    try reflexivity.
  apply demo_batch_binary.
Defined.

(** A correction that is [-1] for both observed labels, for one group. *)
Definition uniform_debias : debias_tensor :=
  [[(Fin (-1), Fin (-1))]; [(Fin (-1), Fin (-1))]].

Lemma fair_training_uniform_correction_witness :
  demo_fair uniform_debias FairLogReg true
  = Ok {| loss := Scalar (TF.add (Fin (- -1)) (Fin 0));
          regr_loss := Scalar (Fin (- -1));
          l2_loss := Fin 0 |}.
Proof.
  apply (fair_training_uniform_correction unit unit unit demo_sensitive
           demo_construct_input (fun _ => Ok uniform_debias)
           (fun _ => Ok uniform_debias) (demo_self FairLogReg) tt demo_outputs
           demo_batch tt uniform_debias (Fin 0) (-1)); try reflexivity.
  - repeat constructor; try (now exists 0); cbn; lia.
  - discriminate.
Defined.

End PredictionWitnesses.

(** ** The other functions of [universalgp/util/util.py] *)

(** Outcomes of plain Python code, with the two exceptions of the builtin
    operations used below. *)
Module PyCore.

Inductive error : Type :=
| IndexError (msg : string)          (* [l[i]] outside of a list *)
| ZeroDivisionError (msg : string)   (* division by zero *)
| ShapeError (msg : string)          (* a [ValueError] of numpy *)
| NotSubscriptable.                  (* a [TypeError]: [l[i]] on a non-list *)

Inductive outcome (A : Type) : Type :=
| Returned (a : A)
| Raised (e : error).
Arguments Returned {A} a.
Arguments Raised {A} e.

Definition and_then {A B} (r : outcome A) (k : A -> outcome B) : outcome B :=
  match r with
  | Returned a => k a
  | Raised e => Raised e
  end.

(** [for i in is: acc = body(i, acc)] *)
Fixpoint for_loop {A} (indices : list nat) (body : nat -> A -> outcome A)
    (acc : A) : outcome A :=
  match indices with
  | [] => Returned acc
  | i :: indices' => and_then (body i acc) (for_loop indices' body)
  end.

(** [for i in range(n)] *)
Definition for_range {A} (n : nat) (body : nat -> A -> outcome A) (acc : A)
    : outcome A :=
  for_loop (seq 0 n) body acc.

End PyCore.

Module UtilRest.

Import PyCore.

(** The values that [init_list] handles: [None], an initial value, or a
    list of such values. *)
#[warnings="-register-all"]
Inductive pyobj (V : Type) : Type :=
| PNone
| PVal (v : V)
| PList (l : list (pyobj V)).
Arguments PNone {V}.
Arguments PVal {V} v.
Arguments PList {V} l.

(** [l[i]] and [l[i] = x] *)
Definition getitem {V} (l : pyobj V) (i : nat) : outcome (pyobj V) :=
  match l with
  | PList xs =>
      match xs !! i with
      | Some x => Returned x
      | None => Raised (IndexError "list index out of range")
      end
  | _ => Raised NotSubscriptable
  end.

Definition setitem {V} (l : pyobj V) (i : nat) (x : pyobj V) : outcome (pyobj V) :=
  match l with
  | PList xs =>
      if (i <? List.length xs)%nat then Returned (PList (<[i := x]> xs))
      else Raised (IndexError "list assignment index out of range")
  | _ => Raised NotSubscriptable
  end.

Section InitList.

(** The argument [init]: a value, or a callable that takes no argument,
    returns a value and may change the state of the process. *)
Variables State V : Type.

Inductive initializer : Type :=
| Constant (v : V)
| Callable (f : State -> V * State).

(** [init() if callable(init) else init] *)
Definition produce (init : initializer) (s : State) : V * State :=
  match init with
  | Constant v => (v, s)
  | Callable f => f s
  end.

(** Every sublist is a fresh copy, so that no two positions share a
    list. *)
Fixpoint empty_list (dims : list nat) : pyobj V :=
  match dims with
  | [] => PNone
  | d :: dims' => PList (replicate d (empty_list dims'))
  end.

Fixpoint fill_list (init : initializer) (dims : list nat) (ls : pyobj V * State)
    : outcome (pyobj V * State) :=
  match dims with
  | [] => Raised (IndexError "list index out of range")
  | d :: dims' =>
      match dims' with
      | [] =>
          for_range d (fun i ls =>
            let vs := produce init (snd ls) in
            and_then (setitem (fst ls) i (PVal (fst vs))) (fun l' =>
            Returned (l', snd vs))) ls
      | _ :: _ =>
          for_range d (fun i ls =>
            and_then (getitem (fst ls) i) (fun sub =>
            and_then (fill_list init dims' (sub, snd ls)) (fun sub_s =>
            and_then (setitem (fst ls) i (fst sub_s)) (fun l' =>
            Returned (l', snd sub_s))))) ls
      end
  end.

Definition init_list (init : initializer) (dims : list nat) (s : State)
    : outcome (pyobj V * State) :=
  let l := empty_list dims in
  fill_list init dims (l, s).

End InitList.

Arguments Constant {State V} v.
Arguments Callable {State V} f.
Arguments produce {State V} init s.
Arguments empty_list {V} dims.
Arguments fill_list {State V} init dims ls.
Arguments init_list {State V} init dims s.


(** [logsumexp(vals)] on a rank-1 tensor, with [dim] left out or 0. *)
Definition logsumexp (vals : list tfloat) : tfloat :=
  let m := TF.reduce_max vals in
  TF.add m (TF.log (TF.reduce_sum (List.map (fun v => TF.exp (TF.sub v m)) vals))).

(** [logsumexp(vals, 1)] on a rank-2 tensor: one value for every row. *)
Definition logsumexp_dim1 (vals : tensor2) : list tfloat :=
  List.map logsumexp (rows vals).

(** [tf.transpose] of a rank-2 tensor. *)
Definition transpose (t : tensor2) : tensor2 :=
  {| ncols := List.length (rows t);
     rows := List.map (fun j => List.map (fun r => nth j r (Fin 0)) (rows t))
               (seq 0 (ncols t)) |}.

(** The size of a broadcast dimension: equal sizes, or one of them 1. *)
Definition broadcast_dim (a b : nat) : option nat :=
  if (a =? b)%nat then Some a
  else if (a =? 1)%nat then Some b
  else if (b =? 1)%nat then Some a
  else None.

(** The entry that position [(i, j)] of a broadcast result reads. *)
Definition broadcast_entry (t : tensor2) (i j : nat) : tfloat :=
  nth (if (ncols t =? 1)%nat then 0%nat else j)
    (nth (if (List.length (rows t) =? 1)%nat then 0%nat else i) (rows t) [])
    (Fin 0).

(** [a * b] on rank-2 tensors, entry by entry, with broadcasting. *)
Definition multiply (a b : tensor2) : result tensor2 :=
  match broadcast_dim (List.length (rows a)) (List.length (rows b)),
        broadcast_dim (ncols a) (ncols b) with
  | Some n, Some m =>
      Ok {| ncols := m;
            rows := List.map (fun i =>
                      List.map (fun j => TF.mul (broadcast_entry a i j)
                                           (broadcast_entry b i j))
                        (seq 0 m))
                      (seq 0 n) |}
  | _, _ => Raise (InvalidArgument "Incompatible shapes")
  end.

(** [a @ b] on rank-2 tensors. *)
Definition matmul (a b : tensor2) : result tensor2 :=
  if (ncols a =? List.length (rows b))%nat
  then Ok {| ncols := ncols b;
             rows := List.map (fun ra =>
                       List.map (fun j =>
                         TF.reduce_sum
                           (List.map (fun l =>
                              TF.mul (nth l ra (Fin 0))
                                (nth j (nth l (rows b) []) (Fin 0)))
                              (seq 0 (ncols a))))
                         (seq 0 (ncols b)))
                       (rows a) |}
  else Raise (InvalidArgument "Matrix size-incompatible").

Definition diag_mul (mat1 mat2 : tensor2) : result (list tfloat) :=
  let! prod := multiply mat1 (transpose mat2) in
  Ok (List.map TF.reduce_sum (rows prod)).

Definition mat_square (mat : tensor2) : result tensor2 :=
  matmul mat (transpose mat).

End UtilRest.

(** ** [init_list] *)

Section InitListFacts.

Import PyCore UtilRest.

Variables State V : Type.

(** [n] calls in a row of a step, each in the state left by the one
    before. *)
Fixpoint thread {A} (n : nat) (step : State -> A * State) (s : State) : list A * State :=
  match n with
  | O => ([], s)
  | S n' =>
      let xs1 := step s in
      let xs2 := thread n' step (snd xs1) in
      (fst xs1 :: fst xs2, snd xs2)
  end.

(** The nested list of shape [dims] built in one pass, its leaves produced
    in row-major order. *)
Fixpoint build (init : initializer State V) (dims : list nat) (s : State) : pyobj V * State :=
  match dims with
  | [] => (PVal (fst (produce init s)), snd (produce init s))
  | d :: dims' =>
      (PList (fst (thread d (build init dims') s)),
       snd (thread d (build init dims') s))
  end.

(** The nested list of shape [dims] with the leaf [v] everywhere. *)
Fixpoint full (dims : list nat) (v : V) : pyobj V :=
  match dims with
  | [] => PVal v
  | d :: dims' => PList (replicate d (full dims' v))
  end.

(** The leaves of a nested list, from left to right. *)
Fixpoint leaves (o : pyobj V) : list V :=
  match o with
  | PNone => []
  | PVal v => [v]
  | PList l => flat_map leaves l
  end.

(** The nested list [o] has the shape [dims]. *)
Fixpoint has_shape (dims : list nat) (o : pyobj V) : Prop :=
  match dims with
  | [] => match o with PVal _ => True | _ => False end
  | d :: dims' =>
      match o with
      | PList l => List.length l = d /\ Forall (has_shape dims') l
      | _ => False
      end
  end.

Lemma length_thread {A} (n : nat) (step : State -> A * State) (s : State) :
  List.length (fst (thread n step s)) = n.
Proof.
  revert s. induction n as [| n IH]; intros s; cbn [thread fst List.length];
    [reflexivity |].
  now rewrite IH.
Qed.

(** A loop whose body stores at index [i] what a step produces fills a
    list of untouched entries [e] from the left. *)
Lemma for_loop_fill (step : State -> pyobj V * State) (e : pyobj V)
    (body : nat -> pyobj V * State -> outcome (pyobj V * State)) :
  (forall i l s, l !! i = Some e ->
     body i (PList l, s)
     = Returned (PList (<[i := fst (step s)]> l), snd (step s))) ->
  forall n pre s,
    for_loop (seq (List.length pre) n) body (PList (pre ++ replicate n e), s)
    = Returned (PList (pre ++ fst (thread n step s)), snd (thread n step s)).
Proof.
  intros Hbody. induction n as [| n IH]; intros pre s.
  - cbn. now rewrite app_nil_r.
  - cbn [seq for_loop replicate thread fst snd].
    rewrite Hbody by (now rewrite list_lookup_middle).
    cbn [and_then].
    replace (<[List.length pre := fst (step s)]> (pre ++ e :: replicate n e))
      with ((pre ++ [fst (step s)]) ++ replicate n e).
    + specialize (IH (pre ++ [fst (step s)]) (snd (step s))).
      rewrite length_app in IH. cbn [List.length] in IH.
      rewrite Nat.add_1_r in IH. rewrite IH.
      now rewrite <- app_assoc.
    + rewrite <- app_assoc. cbn [app].
      rewrite insert_app_r_alt by lia.
      now rewrite Nat.sub_diag.
Qed.

Lemma for_range_fill (step : State -> pyobj V * State) (e : pyobj V)
    (body : nat -> pyobj V * State -> outcome (pyobj V * State)) (d : nat) (s : State) :
  (forall i l s, l !! i = Some e ->
     body i (PList l, s)
     = Returned (PList (<[i := fst (step s)]> l), snd (step s))) ->
  for_range d body (PList (replicate d e), s)
  = Returned (PList (fst (thread d step s)), snd (thread d step s)).
Proof.
  intros Hbody. exact (for_loop_fill step e body Hbody d [] s).
Qed.

(** Filling the empty nested list of a non-empty shape gives what one
    pass builds. *)
Lemma fill_list_build (init : initializer State V) (dims : list nat) (s : State) :
  dims <> [] ->
  fill_list init dims (empty_list dims, s) = Returned (build init dims s).
Proof.
  revert s. induction dims as [| d dims IH]; intros s Hne; [contradiction |].
  destruct dims as [| d' dims].
  - cbn [fill_list empty_list build].
    apply (for_range_fill (build init []) PNone).
    intros i l s0 Hi. cbn [fst snd setitem build].
    rewrite (proj2 (Nat.ltb_lt _ _) (lookup_lt_Some _ _ _ Hi)).
    reflexivity.
  - change (fill_list init (d :: d' :: dims) (empty_list (d :: d' :: dims), s))
      with (for_range d (fun i ls =>
              and_then (getitem (fst ls) i) (fun sub =>
              and_then (fill_list init (d' :: dims) (sub, snd ls)) (fun sub_s =>
              and_then (setitem (fst ls) i (fst sub_s)) (fun l' =>
              Returned (l', snd sub_s)))))
              (PList (replicate d (empty_list (d' :: dims))), s)).
    cbn [build].
    apply (for_range_fill (build init (d' :: dims)) (empty_list (d' :: dims))).
    intros i l s0 Hi. cbn [fst snd getitem]. rewrite Hi. cbn [and_then].
    rewrite IH by discriminate. cbn [and_then setitem].
    rewrite (proj2 (Nat.ltb_lt _ _) (lookup_lt_Some _ _ _ Hi)).
    reflexivity.
Qed.

Lemma thread_constant {A} (step : State -> A * State) (x : A) (n : nat) (s : State) :
  (forall s0, step s0 = (x, s0)) -> thread n step s = (replicate n x, s).
Proof.
  intros Hstep. revert s.
  induction n as [| n IH]; intros s; cbn [thread replicate]; [reflexivity |].
  rewrite Hstep. cbn [fst snd]. now rewrite IH.
Qed.

Lemma build_constant (v : V) (dims : list nat) (s : State) :
  build (Constant v) dims s = (full dims v, s).
Proof.
  revert s. induction dims as [| d dims IH]; intros s; cbn [build full];
    [reflexivity |].
  now rewrite (thread_constant (build (Constant v) dims) (full dims v) d s IH).
Qed.

(** With a value as initializer: an empty shape raises [IndexError]
    ([fill_list] reads [dims[0]]); any other shape gives the nested list
    of that shape with the value at every leaf, and the state of the
    process is left as it was. *)
Theorem init_list_constant (v : V) (dims : list nat) (s : State) :
  init_list (Constant v) dims s
  = match dims with
    | [] => Raised (IndexError "list index out of range")
    | _ :: _ => Returned (full dims v, s)
    end.
Proof.
  destruct dims as [| d dims]; [reflexivity |].
  unfold init_list. rewrite fill_list_build by discriminate.
  now rewrite build_constant.
Qed.

(** The number of leaves of a shape. *)
Definition size (dims : list nat) : nat := fold_right Nat.mul 1%nat dims.

Lemma thread_add {A} (step : State -> A * State) (a b : nat) (s : State) :
  thread (a + b) step s
  = (fst (thread a step s) ++ fst (thread b step (snd (thread a step s))),
     snd (thread b step (snd (thread a step s)))).
Proof.
  revert s. induction a as [| a IH]; intros s; cbn [Nat.add thread fst snd app].
  - now destruct (thread b step s).
  - now rewrite IH.
Qed.

Lemma thread_chunks (step : State -> V * State) (chunk : State -> pyobj V * State)
    (m d : nat) (s : State) :
  (forall s0, leaves (fst (chunk s0)) = fst (thread m step s0)
              /\ snd (chunk s0) = snd (thread m step s0)) ->
  flat_map leaves (fst (thread d chunk s)) = fst (thread (d * m) step s)
  /\ snd (thread d chunk s) = snd (thread (d * m) step s).
Proof.
  intros Hchunk. revert s. induction d as [| d IH]; intros s.
  - split; reflexivity.
  - cbn [thread fst snd flat_map Nat.mul]. rewrite thread_add. cbn [fst snd].
    destruct (Hchunk s) as [Hl Hs]. rewrite Hl, Hs.
    destruct (IH (snd (thread m step s))) as [IHl IHs].
    now rewrite IHl, IHs.
Qed.

Lemma build_leaves (init : initializer State V) (dims : list nat) (s : State) :
  leaves (fst (build init dims s)) = fst (thread (size dims) (produce init) s)
  /\ snd (build init dims s) = snd (thread (size dims) (produce init) s).
Proof.
  revert s. induction dims as [| d dims IH]; intros s.
  - cbn. split; reflexivity.
  - cbn [build fst snd leaves size fold_right].
    apply (thread_chunks (produce init) (build init dims)). exact IH.
Qed.

Lemma thread_Forall {A} (P : A -> Prop) (step : State -> A * State) (n : nat)
    (s : State) :
  (forall s0, P (fst (step s0))) -> Forall P (fst (thread n step s)).
Proof.
  intros HP. revert s. induction n as [| n IH]; intros s; cbn [thread fst];
    constructor; [apply HP | apply IH].
Qed.

Lemma build_shape (init : initializer State V) (dims : list nat) (s : State) :
  has_shape dims (fst (build init dims s)).
Proof.
  revert s. induction dims as [| d dims IH]; intros s; cbn [build fst has_shape].
  - exact I.
  - split; [apply length_thread | now apply thread_Forall].
Qed.

(** With a callable as initializer and a non-empty shape, [init_list]
    returns a nested list of that shape, calls the initializer once for
    every leaf and no more, and the leaves hold the results of the calls
    in row-major order. *)
Theorem init_list_callable (f : State -> V * State) (dims : list nat) (s : State) :
  dims <> [] ->
  exists o,
    init_list (Callable f) dims s = Returned (o, snd (thread (size dims) f s))
    /\ has_shape dims o
    /\ leaves o = fst (thread (size dims) f s).
Proof.
  intros Hne. exists (fst (build (Callable f) dims s)).
  destruct (build_leaves (Callable f) dims s) as [Hl Hs].
  change (produce (Callable f)) with f in Hl, Hs.
  unfold init_list. rewrite (fill_list_build _ _ _ Hne).
  repeat split.
  - rewrite <- Hs. now destruct (build (Callable f) dims s).
  - apply build_shape.
  - exact Hl.
Qed.

End InitListFacts.

(** A callable that numbers its calls: the state is the number of calls
    made so far. *)
Definition counter (n : nat) : nat * nat := (n, S n).

Example init_list_counter_2_3 :
  UtilRest.init_list (UtilRest.Callable counter) [2; 3]%nat 0%nat
  = PyCore.Returned
      (UtilRest.PList
         [UtilRest.PList [UtilRest.PVal 0; UtilRest.PVal 1; UtilRest.PVal 2];
          UtilRest.PList [UtilRest.PVal 3; UtilRest.PVal 4; UtilRest.PVal 5]]%nat,
       6%nat).
Proof. reflexivity. Qed.

Lemma init_list_callable_witness :
  exists o,
    UtilRest.init_list (UtilRest.Callable counter) [2; 3]%nat 0%nat
    = PyCore.Returned (o, snd (thread nat (size [2; 3]%nat) counter 0%nat))
    /\ has_shape nat [2; 3]%nat o
    /\ leaves nat o = fst (thread nat (size [2; 3]%nat) counter 0%nat).
Proof.
  apply (init_list_callable nat nat counter [2; 3]%nat 0%nat).
  discriminate.
Defined.

(** ** [ceil_divide] *)

Section CeilDivide.

Import PyCore UtilRest.






End CeilDivide.

(** ** [logsumexp] *)

Section LogSumExp.

Import UtilRest.

Lemma fold_max_Fin (l : list R) (a : R) :
  fold_left TF.max (List.map Fin l) (Fin a) = Fin (fold_left Rmax l a).
Proof.
  revert a. induction l as [| x l IH]; intros a; cbn [List.map fold_left];
    [reflexivity |].
  cbn [TF.max]. apply IH.
Qed.

Lemma reduce_max_Fin (x : R) (l : list R) :
  TF.reduce_max (List.map Fin (x :: l)) = Fin (fold_left Rmax l x).
Proof.
  unfold TF.reduce_max. cbn [List.map fold_left TF.max]. apply fold_max_Fin.
Qed.

Lemma fold_max_NInf (l : list tfloat) (a : tfloat) :
  fold_left TF.max l a = NInf -> a = NInf /\ Forall (fun v => v = NInf) l.
Proof.
  revert a. induction l as [| x l IH]; intros a H; cbn [fold_left] in H.
  - split; [exact H | constructor].
  - destruct (IH _ H) as [Hax Hl].
    destruct a, x; cbn in Hax; try discriminate.
    split; [reflexivity | now constructor].
Qed.

Lemma fold_max_PInf (l : list tfloat) (a : tfloat) :
  fold_left TF.max l a = PInf -> a = PInf \/ In PInf l.
Proof.
  revert a. induction l as [| x l IH]; intros a H; cbn [fold_left] in H.
  - now left.
  - destruct (IH _ H) as [Hax | Hin]; [| right; now right].
    destruct a, x; cbn in Hax; try discriminate;
      first [now left | right; now left].
Qed.

Lemma Rsum_exp_shift (l : list R) (m : R) :
  Rsum (List.map (fun x => Rtrigo_def.exp (x + - m)) l)
  = Rsum (List.map Rtrigo_def.exp l) * Rtrigo_def.exp (- m).
Proof.
  induction l as [| x l IH]; cbn [List.map Rsum fold_right]; [lra |].
  fold (Rsum (List.map (fun x => Rtrigo_def.exp (x + - m)) l)).
  fold (Rsum (List.map Rtrigo_def.exp l)).
  rewrite IH, exp_plus. lra.
Qed.

Lemma Rsum_exp_pos (l : list R) :
  l <> [] -> 0 < Rsum (List.map Rtrigo_def.exp l).
Proof.
  intros Hne. destruct l as [| x l]; [contradiction |]. clear Hne.
  revert x. induction l as [| y l IH]; intros x;
    cbn [List.map Rsum fold_right].
  - pose proof (exp_pos x). lra.
  - specialize (IH y). cbn [List.map Rsum fold_right] in IH.
    pose proof (exp_pos x). lra.
Qed.

(** Where the maximum is finite, the function of the module and the
    reduction of the library agree. *)
Lemma logsumexp_library (vals : list tfloat) :
  TF.is_finite (TF.reduce_max vals) = true ->
  logsumexp vals = TF.reduce_logsumexp vals.
Proof.
  intros Hfin. unfold logsumexp, TF.reduce_logsumexp.
  rewrite Hfin. apply add_comm.
Qed.

(** On a rank-1 tensor of finite entries that is not empty, [logsumexp]
    returns the logarithm of the sum of the exponentials, which is also
    what [tf.reduce_logsumexp] returns. *)
Theorem logsumexp_finite (l : list R) :
  l <> [] ->
  logsumexp (List.map Fin l) = Fin (ln (Rsum (List.map Rtrigo_def.exp l)))
  /\ logsumexp (List.map Fin l) = TF.reduce_logsumexp (List.map Fin l).
Proof.
  intros Hne. split.
  - unfold logsumexp. destruct l as [| x l]; [contradiction |].
    rewrite reduce_max_Fin. set (m := fold_left Rmax l x).
    rewrite List.map_map. cbn [TF.sub TF.neg TF.add TF.exp].
    rewrite <- (List.map_map (fun v => Rtrigo_def.exp (v + - m)) Fin).
    rewrite reduce_sum_Fin, Rsum_exp_shift.
    pose proof (Rsum_exp_pos (x :: l) Hne) as Hpos.
    pose proof (exp_pos (- m)) as Hm.
    rewrite log_Fin_pos by (now apply Rmult_lt_0_compat).
    cbn [TF.add]. f_equal.
    rewrite ln_mult by assumption. rewrite ln_exp. lra.
  - apply logsumexp_library. destruct l as [| x l]; [contradiction |].
    now rewrite reduce_max_Fin.
Qed.

Lemma sum_exp_has_NaN (vals : list tfloat) (m v : tfloat) :
  In v vals -> TF.sub v m = NaN ->
  TF.reduce_sum (List.map (fun v => TF.exp (TF.sub v m)) vals) = NaN.
Proof.
  intros Hin Hsub. unfold TF.reduce_sum. apply fold_add_has_NaN.
  apply in_map_iff. exists v. split; [now rewrite Hsub | exact Hin].
Qed.

(** When the maximum of the entries is not finite (an entry is plus
    infinity or not-a-number, or every entry is minus infinity),
    [logsumexp] returns not-a-number: the maximum is subtracted without a
    check. *)
Theorem logsumexp_not_finite (vals : list tfloat) :
  vals <> [] ->
  TF.is_finite (TF.reduce_max vals) = false ->
  logsumexp vals = NaN.
Proof.
  intros Hne Hfin. unfold logsumexp.
  destruct (TF.reduce_max vals) as [x | | |] eqn:Hm; try discriminate.
  - unfold TF.reduce_max in Hm. apply fold_max_PInf in Hm.
    destruct Hm as [Hm | Hin]; [discriminate |].
    now rewrite (sum_exp_has_NaN vals PInf PInf Hin eq_refl).
  - unfold TF.reduce_max in Hm. apply fold_max_NInf in Hm.
    destruct Hm as [_ Hall]. destruct vals as [| v vals]; [contradiction |].
    apply Forall_inv in Hall. subst v.
    now rewrite (sum_exp_has_NaN (NInf :: vals) NInf NInf (or_introl eq_refl) eq_refl).
  - reflexivity.
Qed.

Lemma logsumexp_finite_witness :
  logsumexp (List.map Fin [0; 1])
  = Fin (ln (Rsum (List.map Rtrigo_def.exp [0; 1])))
  /\ logsumexp (List.map Fin [0; 1]) = TF.reduce_logsumexp (List.map Fin [0; 1]).
Proof. apply (logsumexp_finite [0; 1]). discriminate. Defined.

Lemma logsumexp_not_finite_witness : logsumexp [NInf; NInf] = NaN.
Proof.
  apply (logsumexp_not_finite [NInf; NInf]); [discriminate | reflexivity].
Defined.

End LogSumExp.

(** ** [diag_mul] and [mat_square] *)

Section MatrixProducts.

Import UtilRest.

Local Open Scope nat_scope.

(** The entry of a rank-2 tensor at row [i] and column [j]. *)
Definition cell (t : tensor2) (i j : nat) : tfloat :=
  nth j (nth i (rows t) []) (Fin 0).

(** The entry [(i, j)] of a matrix product with inner dimension [k]. *)
Definition dot (a b : tensor2) (k i j : nat) : tfloat :=
  TF.reduce_sum (List.map (fun l => TF.mul (cell a i l) (cell b l j)) (seq 0 k)).

Lemma nth_map_seq {A} (g : nat -> A) (n i : nat) (d : A) :
  i < n -> nth i (List.map g (seq 0 n)) d = g i.
Proof.
  intros Hi. apply nth_lookup_Some. rewrite list_lookup_fmap.
  replace (seq 0 n !! i) with (Some i); [reflexivity |].
  symmetry. apply lookup_seq. lia.
Qed.

Lemma nth_map_rows {A B} (f : A -> B) (l : list A) (i : nat) (d : A) (d' : B) :
  i < List.length l -> nth i (List.map f l) d' = f (nth i l d).
Proof.
  intros Hi. rewrite (nth_indep _ d' (f d)) by (now rewrite length_map).
  apply map_nth.
Qed.

Lemma cell_transpose (t : tensor2) (i j : nat) :
  i < ncols t -> cell (transpose t) i j = cell t j i.
Proof.
  intros Hi. unfold cell, transpose. cbn [rows].
  rewrite (nth_map_seq _ (ncols t) i []) by exact Hi.
  destruct (Nat.lt_ge_cases j (List.length (rows t))) as [Hj | Hj].
  - now rewrite (nth_map_rows _ (rows t) j [] (Fin 0)) by exact Hj.
  - rewrite (nth_overflow (List.map _ _)) by (rewrite length_map; lia).
    rewrite (nth_overflow (rows t)) by lia.
    now destruct i.
Qed.

Lemma cell_matmul (a b : tensor2) (i j : nat) :
  i < List.length (rows a) -> j < ncols b ->
  nth j (nth i (List.map (fun ra =>
           List.map (fun j' =>
             TF.reduce_sum
               (List.map (fun l => TF.mul (nth l ra (Fin 0))
                                     (nth j' (nth l (rows b) []) (Fin 0)))
                  (seq 0 (ncols a))))
             (seq 0 (ncols b))) (rows a)) []) (Fin 0)
  = dot a b (ncols a) i j.
Proof.
  intros Hi Hj.
  rewrite (nth_map_rows _ (rows a) i [] []) by exact Hi.
  now rewrite (nth_map_seq _ (ncols b) j (Fin 0)) by exact Hj.
Qed.

Lemma broadcast_entry_cell (t : tensor2) (i j : nat) :
  i < List.length (rows t) -> j < ncols t -> broadcast_entry t i j = cell t i j.
Proof.
  intros Hi Hj. unfold broadcast_entry, cell.
  destruct (Nat.eqb_spec (List.length (rows t)) 1) as [Hn | _];
    destruct (Nat.eqb_spec (ncols t) 1) as [Hk | _];
    try (replace i with 0 by lia); try (replace j with 0 by lia);
    reflexivity.
Qed.

Lemma length_rows_transpose (t : tensor2) :
  List.length (rows (transpose t)) = ncols t.
Proof. cbn [transpose rows]. now rewrite length_map, length_seq. Qed.

Lemma ncols_transpose (t : tensor2) : ncols (transpose t) = List.length (rows t).
Proof. reflexivity. Qed.

Lemma mul_comm (a b : tfloat) : TF.mul a b = TF.mul b a.
Proof.
  destruct a, b; cbn; try reflexivity. f_equal. apply Rmult_comm.
Qed.

(** [diag_mul(mat1, mat2)] is the diagonal of the product [mat1 @ mat2]:
    for [mat1] of shape [(n, k)] and [mat2] of shape [(k, n)] it returns
    what [tf.diag_part] returns on [mat1 @ mat2], without forming the
    product. *)
Theorem diag_mul_is_diagonal_of_product (mat1 mat2 : tensor2) :
  List.length (rows mat2) = ncols mat1 ->
  ncols mat2 = List.length (rows mat1) ->
  exists d prod,
    diag_mul mat1 mat2 = Ok d
    /\ matmul mat1 mat2 = Ok prod
    /\ TF.diag_part prod = Ok d
    /\ List.length d = List.length (rows mat1).
Proof.
  intros Hk Hn.
  set (n := List.length (rows mat1)) in *. set (k := ncols mat1) in *.
  exists (List.map (fun i => dot mat1 mat2 k i i) (seq 0 n)).
  eexists. repeat split.
  - unfold diag_mul, multiply.
    rewrite length_rows_transpose, ncols_transpose, Hn, Hk. fold n k.
    unfold broadcast_dim. rewrite !Nat.eqb_refl. cbn [Py.bind rows].
    rewrite List.map_map. f_equal. apply List.map_ext_in. intros i Hi.
    apply in_seq in Hi. unfold dot. f_equal.
    apply List.map_ext_in. intros l Hl. apply in_seq in Hl.
    rewrite broadcast_entry_cell by (fold n k; lia).
    rewrite broadcast_entry_cell
      by (rewrite ?length_rows_transpose, ?ncols_transpose; lia).
    now rewrite cell_transpose by lia.
  - unfold matmul. fold k. rewrite Hk, Nat.eqb_refl. reflexivity.
  - unfold TF.diag_part, diagonal. cbn [rows ncols].
    rewrite length_map. fold n.
    rewrite (proj2 (Nat.eqb_eq n (ncols mat2))) by (now rewrite Hn).
    f_equal. apply List.map_ext_in. intros i Hi. apply in_seq in Hi.
    apply (cell_matmul mat1 mat2 i i); fold n; lia.
  - now rewrite length_map, length_seq.
Qed.

(** [mat_square] does not raise: on a matrix with [n] rows it returns an
    [n] by [n] matrix that is symmetric. *)
Theorem mat_square_symmetric (mat : tensor2) :
  exists sq,
    mat_square mat = Ok sq
    /\ ncols sq = List.length (rows mat)
    /\ List.length (rows sq) = List.length (rows mat)
    /\ forall i j, i < List.length (rows mat) -> j < List.length (rows mat) ->
         cell sq i j = cell sq j i.
Proof.
  unfold mat_square, matmul.
  rewrite length_rows_transpose, Nat.eqb_refl.
  eexists. split; [reflexivity |].
  cbn [ncols rows]. split; [reflexivity |]. split; [now rewrite length_map |].
  intros i j Hi Hj. unfold cell. cbn [rows].
  rewrite (cell_matmul mat (transpose mat) i j)
    by (rewrite ?ncols_transpose; lia).
  rewrite (cell_matmul mat (transpose mat) j i)
    by (rewrite ?ncols_transpose; lia).
  unfold dot. f_equal. apply List.map_ext_in. intros l Hl. apply in_seq in Hl.
  rewrite !cell_transpose by lia. apply mul_comm.
Qed.

End MatrixProducts.

Lemma diag_mul_is_diagonal_of_product_witness :
  exists d prod,
    UtilRest.diag_mul
      {| ncols := 3; rows := [[Fin 1; Fin 2; Fin 3]; [Fin 4; Fin 5; Fin 6]] |}
      {| ncols := 2; rows := [[Fin 1; Fin 0]; [Fin 0; Fin 1]; [Fin 1; Fin 1]] |}
    = Ok d
    /\ UtilRest.matmul
         {| ncols := 3; rows := [[Fin 1; Fin 2; Fin 3]; [Fin 4; Fin 5; Fin 6]] |}
         {| ncols := 2; rows := [[Fin 1; Fin 0]; [Fin 0; Fin 1]; [Fin 1; Fin 1]] |}
       = Ok prod
    /\ TF.diag_part prod = Ok d
    /\ List.length d = 2%nat.
Proof.
  apply (diag_mul_is_diagonal_of_product
           {| ncols := 3; rows := [[Fin 1; Fin 2; Fin 3]; [Fin 4; Fin 5; Fin 6]] |}
           {| ncols := 2; rows := [[Fin 1; Fin 0]; [Fin 0; Fin 1]; [Fin 1; Fin 1]] |});
    reflexivity.
Defined.

(** ** [tri_vec_shape] *)

(** The length that [tri_vec_shape] gives for dimension [N] is the number
    of lower-triangle positions that [vec_to_tri] scatters to, and it is a
    length that the check of [vec_to_tri] accepts, with [N] as the
    dimension recovered from it. *)
Theorem tri_vec_shape_fits_vec_to_tri (N : nat) :
  Util.tri_vec_shape N = [List.length (Np.tril_indices N)]
  /\ forall M, Util.tri_vec_shape N = [M] ->
       Np.tri_dim M = N /\ (N * (N + 1) =? 2 * M)%nat = true.
Proof.
  split.
  - now rewrite length_tril_indices.
  - intros M HM. injection HM as <-.
    change (N * (N + 1) / 2)%nat with (tri N). split.
    + apply tri_dim_tri.
    + exact (proj2 (Nat.eqb_eq _ _) (eq_sym (tri_double N))).
Qed.

(** ** [universalgp/datasets/sensitive_from_numpy.py] *)

Module SensitiveFromNumpy.

Import PyCore.

(** Every [step]-th element of a list, after skipping [skip] elements. *)
Fixpoint stride_from {A} (step skip : nat) (l : list A) : list A :=
  match l with
  | [] => []
  | x :: l' =>
      match skip with
      | O => x :: stride_from step (step - 1) l'
      | S skip' => stride_from step skip' l'
      end
  end.

(** [l[::step]]: from the first element forwards for a positive step, from
    the last element backwards for a negative one. *)
Definition slice_step {A} (l : list A) (step : Z) : outcome (list A) :=
  if (step =? 0)%Z then Raised (ShapeError "slice step cannot be zero")
  else if (0 <? step)%Z then Returned (stride_from (Z.to_nat step) 0 l)
  else Returned (stride_from (Z.to_nat (- step)) 0 (rev l)).

(** [a // b] on integers. *)
Definition floordiv (a b : Z) : outcome Z :=
  if (b =? 0)%Z
  then Raised (ZeroDivisionError "integer division or modulo by zero")
  else Returned (a / b)%Z.

(** [np.concatenate((a, b), -1)] on arrays of rank 2: as many rows in
    both, and row [i] of the result is row [i] of [a] followed by row [i]
    of [b]. *)
Definition concatenate_last {A} (a b : list (list A)) : outcome (list (list A)) :=
  if (List.length a =? List.length b)%nat
  then Returned (List.map (fun ab => fst ab ++ snd ab) (combine a b))
  else Raised (ShapeError "all the input array dimensions except for the concatenation axis must match exactly").

(** [_inducing_inputs], on the rows [x] of [train.x] and [s] of
    [train.s]. *)
Definition _inducing_inputs {A} (max_num_inducing : Z) (x s : list (list A))
    (s_as_input : bool) : outcome (list (list A)) :=
  let num_train := Z.of_nat (List.length x) in
  let num_inducing := Z.min num_train max_num_inducing in
  if s_as_input then
    and_then (floordiv num_train num_inducing) (fun step_x =>
    and_then (slice_step x step_x) (fun xs =>
    and_then (floordiv num_train num_inducing) (fun step_s =>
    and_then (slice_step s step_s) (fun ss =>
    concatenate_last xs ss))))
  else
    and_then (floordiv num_train num_inducing) (fun step =>
    slice_step x step).

End SensitiveFromNumpy.

Section InducingInputs.

Import PyCore SensitiveFromNumpy.

Local Open Scope nat_scope.

Lemma stride_from_lookup {A} (step : nat) (l : list A) :
  1 <= step ->
  forall skip j, stride_from step skip l !! j = l !! (skip + j * step).
Proof.
  intros Hstep. induction l as [| x l IH]; intros skip j; cbn [stride_from].
  - now rewrite !lookup_nil.
  - destruct skip as [| skip].
    + destruct j as [| j]; [reflexivity |].
      cbn [lookup list_lookup]. rewrite IH.
      replace (0 + S j * step) with (S (step - 1 + j * step)) by lia.
      reflexivity.
    + rewrite IH. reflexivity.
Qed.

Lemma stride_from_length {A} (step : nat) (l : list A) :
  1 <= step ->
  forall skip,
    List.length (stride_from step skip l)
    = (List.length l - skip + (step - 1)) / step.
Proof.
  intros Hstep. induction l as [| x l IH]; intros skip; cbn [stride_from].
  - cbn [List.length]. symmetry. apply Nat.div_small. lia.
  - destruct skip as [| skip]; cbn [List.length]; rewrite IH.
    + replace (S (List.length l) - 0 + (step - 1))
        with (List.length l + 1 * step) by lia.
      rewrite Nat.div_add by lia.
      destruct (Nat.le_gt_cases (step - 1) (List.length l)) as [Hge | Hlt].
      * replace (List.length l - (step - 1) + (step - 1)) with (List.length l)
          by lia.
        lia.
      * replace (List.length l - (step - 1)) with 0 by lia.
        rewrite (Nat.div_small (List.length l)) by lia.
        rewrite Nat.div_small by lia. lia.
    + reflexivity.
Qed.

Lemma stride_one {A} (l : list A) : stride_from 1 0 l = l.
Proof.
  apply list_eq. intros j.
  rewrite stride_from_lookup by lia. f_equal. lia.
Qed.

(** The number of inducing inputs asked for, and the step between the
    rows that are taken, when there is at least one training row and
    [max_num_inducing] is positive. *)
Definition num_inducing_of {A} (max_num_inducing : Z) (x : list (list A)) : nat :=
  Nat.min (List.length x) (Z.to_nat max_num_inducing).

Definition step_of {A} (max_num_inducing : Z) (x : list (list A)) : nat :=
  List.length x / num_inducing_of max_num_inducing x.

Lemma step_of_positive {A} (max_num_inducing : Z) (x : list (list A)) :
  (1 <= max_num_inducing)%Z -> x <> [] ->
  1 <= num_inducing_of max_num_inducing x <= List.length x
  /\ 1 <= step_of max_num_inducing x.
Proof.
  intros Hmax Hx. unfold step_of, num_inducing_of.
  assert (Hn : 1 <= List.length x) by (destruct x; [contradiction | cbn; lia]).
  split; [lia |].
  apply Nat.div_le_lower_bound; lia.
Qed.

Lemma floordiv_step {A} (max_num_inducing : Z) (x : list (list A)) :
  (1 <= max_num_inducing)%Z -> x <> [] ->
  floordiv (Z.of_nat (List.length x))
    (Z.min (Z.of_nat (List.length x)) max_num_inducing)
  = Returned (Z.of_nat (step_of max_num_inducing x)).
Proof.
  intros Hmax Hx.
  destruct (step_of_positive max_num_inducing x Hmax Hx) as [Hk _].
  unfold step_of, num_inducing_of in *.
  replace (Z.min (Z.of_nat (List.length x)) max_num_inducing)
    with (Z.of_nat (Nat.min (List.length x) (Z.to_nat max_num_inducing)))
    by lia.
  unfold floordiv.
  destruct (Z.eqb_spec (Z.of_nat (Nat.min (List.length x)
                                    (Z.to_nat max_num_inducing))) 0) as [H0 | _];
    [lia |].
  now rewrite Nat2Z.inj_div.
Qed.

Lemma slice_positive_step {A} (l : list A) (step : nat) :
  1 <= step -> slice_step l (Z.of_nat step) = Returned (stride_from step 0 l).
Proof.
  intros Hstep. unfold slice_step.
  destruct (Z.eqb_spec (Z.of_nat step) 0) as [H0 | _]; [lia |].
  destruct (Z.ltb_spec 0 (Z.of_nat step)) as [_ | Hle]; [| lia].
  now rewrite Nat2Z.id.
Qed.

(** Without training rows, or with [max_num_inducing] zero, the division
    that computes the step raises [ZeroDivisionError], whether the
    sensitive attribute is an input or not. *)
Theorem inducing_inputs_zero_division {A} (max_num_inducing : Z)
    (x s : list (list A)) (s_as_input : bool) :
  Z.min (Z.of_nat (List.length x)) max_num_inducing = 0%Z ->
  _inducing_inputs max_num_inducing x s s_as_input
  = Raised (ZeroDivisionError "integer division or modulo by zero").
Proof.
  intros H0. unfold _inducing_inputs, floordiv. rewrite H0.
  now destruct s_as_input.
Qed.

(** The inducing inputs are training rows: row [j] of the result is the
    training row [j * step], so that the first one is the first training
    row; and when [max_num_inducing] is at least the number of training
    rows, all training rows are returned. *)
Theorem inducing_inputs_are_training_rows {A} (max_num_inducing : Z)
    (x s : list (list A)) :
  (1 <= max_num_inducing)%Z -> x <> [] ->
  exists r,
    _inducing_inputs max_num_inducing x s false = Returned r
    /\ (forall j, r !! j = x !! (j * step_of max_num_inducing x))
    /\ ((Z.of_nat (List.length x) <= max_num_inducing)%Z -> r = x).
Proof.
  intros Hmax Hx.
  destruct (step_of_positive max_num_inducing x Hmax Hx) as [Hk Hstep].
  exists (stride_from (step_of max_num_inducing x) 0 x). repeat split.
  - unfold _inducing_inputs. rewrite (floordiv_step _ _ Hmax Hx).
    cbn [and_then]. now apply slice_positive_step.
  - intros j. now rewrite stride_from_lookup.
  - intros Hall. unfold step_of, num_inducing_of in *.
    replace (Nat.min (List.length x) (Z.to_nat max_num_inducing))
      with (List.length x) by lia.
    rewrite Nat.div_same by lia. apply stride_one.
Qed.

(** The number of inducing inputs is at least the number asked for,
    [min(num_train, max_num_inducing)], and less than twice that number;
    it is that number when it divides the number of training rows.  So
    more than [max_num_inducing] rows can be returned. *)
Theorem inducing_inputs_count {A} (max_num_inducing : Z) (x s : list (list A)) :
  (1 <= max_num_inducing)%Z -> x <> [] ->
  exists r,
    _inducing_inputs max_num_inducing x s false = Returned r
    /\ num_inducing_of max_num_inducing x <= List.length r
       <= 2 * num_inducing_of max_num_inducing x - 1
    /\ (List.length x mod num_inducing_of max_num_inducing x = 0 ->
        List.length r = num_inducing_of max_num_inducing x).
Proof.
  intros Hmax Hx.
  destruct (step_of_positive max_num_inducing x Hmax Hx) as [Hk Hstep].
  exists (stride_from (step_of max_num_inducing x) 0 x).
  split.
  - unfold _inducing_inputs. rewrite (floordiv_step _ _ Hmax Hx).
    cbn [and_then]. now apply slice_positive_step.
  - rewrite stride_from_length by exact Hstep.
    unfold step_of in *.
    set (n := List.length x) in *. set (k := num_inducing_of max_num_inducing x) in *.
    set (q := n / k) in *. rewrite Nat.sub_0_r.
    pose proof (Nat.div_mod n k ltac:(lia)) as Hn. fold q in Hn.
    pose proof (Nat.mod_upper_bound n k ltac:(lia)) as Hr.
    pose proof (Nat.div_mod (n + (q - 1)) q ltac:(lia)) as Hc.
    pose proof (Nat.mod_upper_bound (n + (q - 1)) q ltac:(lia)) as Hrc.
    set (c := (n + (q - 1)) / q) in *.
    set (rc := (n + (q - 1)) mod q) in *. set (r := n mod k) in *.
    repeat split.
    + nia.
    + nia.
    + intros Hz. rewrite Hz in Hn. nia.
Qed.

Lemma lookup_map_combine {A B C} (f : A * B -> C) (a : list A) (b : list B)
    (j : nat) (u : A) (v : B) :
  a !! j = Some u -> b !! j = Some v ->
  List.map f (combine a b) !! j = Some (f (u, v)).
Proof.
  revert b j. induction a as [| a0 a IH]; intros b j Ha Hb; [discriminate |].
  destruct b as [| b0 b]; [discriminate |].
  destruct j as [| j]; cbn in *.
  - now injection Ha as ->; injection Hb as ->.
  - now apply IH.
Qed.

(** With the sensitive attribute as input, and as many rows in [train.s]
    as in [train.x], every inducing input is a training row followed by
    its sensitive attribute: the same rows are taken from both arrays. *)
Theorem inducing_inputs_with_sensitive {A} (max_num_inducing : Z)
    (x s : list (list A)) :
  (1 <= max_num_inducing)%Z -> x <> [] ->
  List.length s = List.length x ->
  exists r,
    _inducing_inputs max_num_inducing x s true = Returned r
    /\ List.length r
       = List.length (stride_from (step_of max_num_inducing x) 0 x)
    /\ forall j xr sr,
         x !! (j * step_of max_num_inducing x) = Some xr ->
         s !! (j * step_of max_num_inducing x) = Some sr ->
         r !! j = Some (xr ++ sr).
Proof.
  intros Hmax Hx Hlen.
  destruct (step_of_positive max_num_inducing x Hmax Hx) as [Hk Hstep].
  set (step := step_of max_num_inducing x) in *.
  assert (Hsame : List.length (stride_from step 0 x)
                  = List.length (stride_from step 0 s))
    by (now rewrite !stride_from_length, Hlen by exact Hstep).
  exists (List.map (fun ab => fst ab ++ snd ab)
            (combine (stride_from step 0 x) (stride_from step 0 s))).
  repeat split.
  - unfold _inducing_inputs. rewrite (floordiv_step _ _ Hmax Hx).
    fold step. cbn [and_then].
    rewrite !slice_positive_step by exact Hstep. cbn [and_then].
    unfold concatenate_last. now rewrite Hsame, Nat.eqb_refl.
  - rewrite length_map, length_combine. lia.
  - intros j xr sr Hxr Hsr.
    apply (lookup_map_combine (fun ab => fst ab ++ snd ab) _ _ j xr sr);
      now rewrite stride_from_lookup by exact Hstep.
Qed.

End InducingInputs.

(** Ten training rows with one feature each, and their sensitive
    attribute. *)
Definition demo_train_x : list (list nat) :=
  [[0]; [1]; [2]; [3]; [4]; [5]; [6]; [7]; [8]; [9]]%nat.

Definition demo_train_s : list (list nat) :=
  [[1]; [0]; [1]; [0]; [1]; [0]; [1]; [0]; [1]; [0]]%nat.

Example inducing_inputs_ten_rows_max_four :
  SensitiveFromNumpy._inducing_inputs 4 demo_train_x demo_train_s false
  = PyCore.Returned [[0]; [2]; [4]; [6]; [8]]%nat.
Proof. reflexivity. Qed.

Lemma inducing_inputs_zero_division_witness :
  SensitiveFromNumpy._inducing_inputs 0 demo_train_x demo_train_s true
  = PyCore.Raised (PyCore.ZeroDivisionError "integer division or modulo by zero").
Proof.
  apply (inducing_inputs_zero_division 0 demo_train_x demo_train_s true).
  reflexivity.
Defined.

Lemma inducing_inputs_are_training_rows_witness :
  exists r,
    SensitiveFromNumpy._inducing_inputs 4 demo_train_x demo_train_s false
    = PyCore.Returned r
    /\ (forall j, r !! j = demo_train_x !! (j * step_of 4 demo_train_x)%nat)
    /\ ((Z.of_nat (List.length demo_train_x) <= 4)%Z -> r = demo_train_x).
Proof.
  apply (inducing_inputs_are_training_rows 4 demo_train_x demo_train_s);
    [lia | discriminate].
Defined.

Lemma inducing_inputs_count_witness :
  exists r,
    SensitiveFromNumpy._inducing_inputs 4 demo_train_x demo_train_s false
    = PyCore.Returned r
    /\ (num_inducing_of 4 demo_train_x <= List.length r
        <= 2 * num_inducing_of 4 demo_train_x - 1)%nat
    /\ ((List.length demo_train_x mod num_inducing_of 4 demo_train_x)%nat = 0%nat ->
        List.length r = num_inducing_of 4 demo_train_x).
Proof.
  apply (inducing_inputs_count 4 demo_train_x demo_train_s);
    [lia | discriminate].
Defined.

Lemma inducing_inputs_with_sensitive_witness :
  exists r,
    SensitiveFromNumpy._inducing_inputs 4 demo_train_x demo_train_s true
    = PyCore.Returned r
    /\ List.length r
       = List.length (SensitiveFromNumpy.stride_from (step_of 4 demo_train_x) 0
                        demo_train_x)
    /\ forall j xr sr,
         demo_train_x !! (j * step_of 4 demo_train_x)%nat = Some xr ->
         demo_train_s !! (j * step_of 4 demo_train_x)%nat = Some sr ->
         r !! j = Some (xr ++ sr).
Proof.
  apply (inducing_inputs_with_sensitive 4 demo_train_x demo_train_s);
    [lia | discriminate | reflexivity].
Defined.

(** ** [datasets/maize.py] *)

Module Maize.

(** What [maize_yield] puts into the dataset; the two functions that
    build [tf.data] datasets hold the same four arrays. *)
Record dataset (A : Type) : Type := Dataset {
  input_dim : nat;
  output_dim : nat;
  inducing_inputs : list (list A);
  num_train : nat;
  xtrain : list (list A);
  ytrain : list (list A);
  xtest : list (list A);
  ytest : list (list A)
}.
Arguments Dataset {A} _ _ _ _ _ _ _ _.
Arguments input_dim {A} _.
Arguments output_dim {A} _.
Arguments inducing_inputs {A} _.
Arguments num_train {A} _.
Arguments xtrain {A} _.
Arguments ytrain {A} _.
Arguments xtest {A} _.
Arguments ytest {A} _.

(** [maize_yield], on the rows [data] that [np.loadtxt] returns, with the
    function [zscore] of scipy applied to the first column. *)
Definition maize_yield {A} (zscore : list (list A) -> list (list A))
    (data : list (list A)) : dataset A :=
  let x := List.map (skipn 1) data in
  let y := zscore (List.map (firstn 1) data) in
  let itest := 5%nat in
  let xtrain := firstn itest x ++ skipn (itest + 1) x in
  let ytrain := firstn itest y ++ skipn (itest + 1) y in
  let xtest := firstn 1 (skipn itest x) in
  let ytest := firstn 1 (skipn itest y) in
  {| input_dim := 8;
     output_dim := 1;
     inducing_inputs := xtrain;
     num_train := List.length ytrain;
     xtrain := xtrain;
     ytrain := ytrain;
     xtest := xtest;
     ytest := ytest |}.

End Maize.

Section MaizeFacts.

Import Maize.

Local Open Scope nat_scope.

Variable A : Type.
Variable zscore : list (list A) -> list (list A).

Lemma leave_one_out_rebuilds {B} (l : list B) (i : nat) :
  firstn i (firstn i l ++ skipn (i + 1) l)
  ++ firstn 1 (skipn i l)
  ++ skipn i (firstn i l ++ skipn (i + 1) l)
  = l.
Proof.
  destruct (Nat.le_gt_cases (List.length l) i) as [Hshort | Hlong].
  - rewrite (firstn_all2 l) by lia.
    rewrite (skipn_all2 l (n := i + 1)) by lia.
    rewrite (skipn_all2 l (n := i)) by lia.
    rewrite app_nil_r, (firstn_all2 l) by lia.
    rewrite (skipn_all2 l (n := i)) by lia.
    cbn. now rewrite app_nil_r.
  - assert (Hlen : List.length (firstn i l) = i)
      by (rewrite length_firstn; lia).
    rewrite firstn_app, Hlen, Nat.sub_diag, firstn_O, app_nil_r.
    rewrite (firstn_all2 (firstn i l)) by lia.
    rewrite skipn_app, Hlen, Nat.sub_diag, skipn_O.
    rewrite (skipn_all2 (firstn i l)) by lia. cbn [app].
    rewrite <- (firstn_skipn i l) at 4. f_equal.
    rewrite <- (firstn_skipn 1 (skipn i l)) at 2. f_equal.
    now rewrite skipn_skipn, Nat.add_comm.
Qed.

(** The split loses and repeats nothing and keeps the order: putting the
    test rows back after the first five training rows gives the inputs,
    and the standardized outputs, as they were. *)
Theorem maize_split_rebuilds (data : list (list A)) :
  let ds := maize_yield zscore data in
  firstn 5 (xtrain ds) ++ xtest ds ++ skipn 5 (xtrain ds)
  = List.map (skipn 1) data
  /\ firstn 5 (ytrain ds) ++ ytest ds ++ skipn 5 (ytrain ds)
     = zscore (List.map (firstn 1) data).
Proof.
  cbn [maize_yield xtrain xtest ytrain ytest]. split; apply leave_one_out_rebuilds.
Qed.


End MaizeFacts.


(** ** [_get_normalizer] of [sensitive_from_numpy.py] *)

Module Normalizer.

Import PyCore.

(** Comparisons and arithmetic of numpy on one entry. *)
Definition ltb (a b : tfloat) : bool :=
  match a, b with
  | Fin x, Fin y => if Rlt_dec x y then true else false
  | NInf, Fin _ | NInf, PInf | Fin _, PInf => true
  | _, _ => false
  end.

Definition eqb (a b : tfloat) : bool :=
  match a, b with
  | Fin x, Fin y => if Req_dec_T x y then true else false
  | PInf, PInf | NInf, NInf => true
  | _, _ => false
  end.

Definition fmin (a b : tfloat) : tfloat :=
  match a, b with
  | NaN, _ | _, NaN => NaN
  | NInf, _ | _, NInf => NInf
  | PInf, c | c, PInf => c
  | Fin x, Fin y => Fin (Rmin x y)
  end.

Definition div (a b : tfloat) : tfloat :=
  match a, b with
  | NaN, _ | _, NaN => NaN
  | Fin x, Fin y =>
      match TF.sign y with
      | Eq => TF.inf_of (TF.sign x)
      | _ => Fin (x / y)
      end
  | Fin _, _ => Fin 0
  | PInf, Fin y => match TF.sign y with Lt => NInf | _ => PInf end
  | NInf, Fin y => match TF.sign y with Lt => PInf | _ => NInf end
  | _, _ => NaN
  end.

Definition absf (a : tfloat) : tfloat :=
  match a with
  | Fin x => Fin (Rabs x)
  | PInf | NInf => PInf
  | NaN => NaN
  end.

Definition sqrtf (a : tfloat) : tfloat :=
  match a with
  | Fin x => match TF.sign x with Lt => NaN | _ => Fin (sqrt x) end
  | PInf => PInf
  | _ => NaN
  end.

(** [1e-7] *)
Definition tiny : tfloat := Fin (1 / 10000000).

(** A reduction over an array that must not be empty. *)
Definition reduce_nonempty (op : tfloat -> tfloat -> tfloat) (l : list tfloat)
    : outcome tfloat :=
  match l with
  | [] => Raised (ShapeError "zero-size array to reduction operation which has no identity")
  | a :: l' => Returned (fold_left op l' a)
  end.

(** [base.min()] and [base.max()] over all entries. *)
Definition array_min (t : tensor2) : outcome tfloat :=
  reduce_nonempty fmin (List.concat (rows t)).

Definition array_max (t : tensor2) : outcome tfloat :=
  reduce_nonempty TF.max (List.concat (rows t)).

(** Column [j] of an array. *)
Definition feature (t : tensor2) (j : nat) : list tfloat :=
  List.map (fun r => nth j r (Fin 0)) (rows t).

(** [np.amax(base, axis=0)], [np.mean(base, axis=0)] and
    [np.std(base, axis=0)]. *)
Fixpoint features_max (t : tensor2) (js : list nat) : outcome (list tfloat) :=
  match js with
  | [] => Returned []
  | j :: js' =>
      and_then (reduce_nonempty TF.max (feature t j)) (fun m =>
      and_then (features_max t js') (fun ms => Returned (m :: ms)))
  end.

Definition amax_axis0 (t : tensor2) : outcome (list tfloat) :=
  features_max t (seq 0 (ncols t)).

Definition mean_axis0 (t : tensor2) : list tfloat :=
  List.map (fun j => TF.reduce_mean (feature t j)) (seq 0 (ncols t)).

Definition std_axis0 (t : tensor2) : list tfloat :=
  List.map (fun j =>
      let c := feature t j in
      let m := TF.reduce_mean c in
      sqrtf (TF.reduce_mean
               (List.map (fun x => let d := absf (TF.sub x m) in TF.mul d d) c)))
    (seq 0 (ncols t)).

(** An operation between every row of an array and a vector, with
    broadcasting of the last dimension. *)
Definition with_vector (op : tfloat -> tfloat -> tfloat) (u : tensor2)
    (vec : list tfloat) : outcome tensor2 :=
  match UtilRest.broadcast_dim (ncols u) (List.length vec) with
  | Some w =>
      Returned
        {| ncols := w;
           rows := List.map (fun r =>
                     List.map (fun j =>
                       op (nth (if (ncols u =? 1)%nat then 0%nat else j) r (Fin 0))
                          (nth (if (List.length vec =? 1)%nat then 0%nat else j)
                             vec (Fin 0)))
                       (seq 0 w))
                     (rows u) |}
  | None => Raised (ShapeError "operands could not be broadcast together")
  end.

(** [np.where(m > 1e-7, x / m, x)] on one entry. *)
Definition scale_by (x m : tfloat) : tfloat :=
  if ltb tiny m then div x m else x.

Definition _get_normalizer (base : tensor2) (do_standardize : bool)
    : outcome (tensor2 -> outcome tensor2) :=
  if do_standardize then
    let mean := mean_axis0 base in
    let std := List.map (fun s => if ltb s tiny then Fin 1 else s)
                 (std_axis0 base) in
    Returned (fun unstandardized =>
      and_then (with_vector TF.sub unstandardized mean) (fun centred =>
      with_vector div centred std))
  else
    and_then (array_min base) (fun lo =>
    if eqb lo (Fin 0) then
      and_then (array_max base) (fun hi =>
      if ltb (Fin 10) hi then
        and_then (amax_axis0 base) (fun max_per_feature =>
        Returned (fun unnormalized =>
          with_vector scale_by unnormalized max_per_feature))
      else Returned (fun inp => Returned inp))
    else Returned (fun inp => Returned inp)).

End Normalizer.

Section NormalizerFacts.

Import PyCore Normalizer.

(** An array of finite entries, given by its rows of reals. *)
Definition from_reals (d : nat) (rs : list (list R)) : tensor2 :=
  {| ncols := d; rows := List.map (List.map Fin) rs |}.

(** The largest entry of column [j]. *)
Definition column_max (rs : list (list R)) (j : nat) : R :=
  match List.map (fun r => nth j r 0) rs with
  | [] => 0
  | a :: l => fold_left Rmax l a
  end.

(** [x / m] where [m] exceeds [1e-7], else [x]. *)
Definition scaled (x m : R) : R :=
  if Rlt_dec (1 / 10000000) m then x / m else x.

Lemma fold_min_Fin (l : list R) (a : R) :
  fold_left fmin (List.map Fin l) (Fin a) = Fin (fold_left Rmin l a).
Proof.
  revert a. induction l as [| x l IH]; intros a; cbn [List.map fold_left];
    [reflexivity |].
  cbn [fmin]. apply IH.
Qed.

Lemma fold_Rmin_le (l : list R) (a : R) :
  fold_left Rmin l a <= a /\ Forall (fun x => fold_left Rmin l a <= x) l.
Proof.
  revert a. induction l as [| x l IH]; intros a; cbn [fold_left].
  - split; [lra | constructor].
  - destruct (IH (Rmin a x)) as [Hle Hall].
    pose proof (Rmin_l a x). pose proof (Rmin_r a x).
    split; [lra |]. constructor; [lra | exact Hall].
Qed.

Lemma fold_Rmax_ge (l : list R) (a : R) :
  a <= fold_left Rmax l a /\ Forall (fun x => x <= fold_left Rmax l a) l.
Proof.
  revert a. induction l as [| x l IH]; intros a; cbn [fold_left].
  - split; [lra | constructor].
  - destruct (IH (Rmax a x)) as [Hle Hall].
    pose proof (Rmax_l a x). pose proof (Rmax_r a x).
    split; [lra |]. constructor; [lra | exact Hall].
Qed.

Lemma concat_from_reals (rs : list (list R)) :
  List.concat (List.map (List.map Fin) rs) = List.map Fin (List.concat rs).
Proof.
  induction rs as [| r rs IH]; cbn [List.map List.concat]; [reflexivity |].
  now rewrite IH, List.map_app.
Qed.

Lemma array_min_nonnegative (d : nat) (rs : list (list R)) :
  array_min (from_reals d rs) = Returned (Fin 0) ->
  rs <> [] /\ Forall (Forall (fun x => 0 <= x)) rs.
Proof.
  unfold array_min, from_reals. cbn [rows]. rewrite concat_from_reals.
  destruct (List.concat rs) as [| a l] eqn:Hc; [discriminate |].
  cbn [List.map reduce_nonempty]. rewrite fold_min_Fin.
  intros H. injection H as H0.
  destruct (fold_Rmin_le l a) as [Ha Hl]. rewrite H0 in Ha, Hl.
  assert (Hall : Forall (fun x => 0 <= x) (List.concat rs))
    by (rewrite Hc; now constructor).
  split; [intros ->; discriminate |].
  clear - Hall. induction rs as [| r rs IH]; [constructor |].
  cbn [List.concat] in Hall. apply Forall_app in Hall.
  destruct Hall as [Hr Hrs]. constructor; [exact Hr | now apply IH].
Qed.

Lemma feature_from_reals (d : nat) (rs : list (list R)) (j : nat) :
  feature (from_reals d rs) j = List.map Fin (List.map (fun r => nth j r 0) rs).
Proof.
  unfold feature, from_reals. cbn [rows]. rewrite !List.map_map.
  apply List.map_ext. intros r. apply (map_nth Fin).
Qed.

Lemma features_max_from_reals (d : nat) (rs : list (list R)) (js : list nat) :
  rs <> [] ->
  features_max (from_reals d rs) js
  = Returned (List.map (fun j => Fin (column_max rs j)) js).
Proof.
  intros Hne. induction js as [| j js IH]; cbn [features_max List.map];
    [reflexivity |].
  rewrite feature_from_reals, IH. unfold column_max.
  destruct rs as [| r rs]; [contradiction |].
  cbn [List.map reduce_nonempty and_then]. now rewrite fold_max_Fin.
Qed.

Lemma entry_below_column_max (rs : list (list R)) (r : list R) (j : nat) :
  In r rs -> nth j r 0 <= column_max rs j.
Proof.
  intros Hin. unfold column_max.
  assert (Hmem : In (nth j r 0) (List.map (fun r => nth j r 0) rs))
    by (apply in_map_iff; now exists r).
  destruct (List.map (fun r => nth j r 0) rs) as [| a l]; [contradiction |].
  destruct (fold_Rmax_ge l a) as [Ha Hl].
  destruct Hmem as [<- | Hmem]; [exact Ha |].
  rewrite List.Forall_forall in Hl. now apply Hl.
Qed.

Lemma scale_by_Fin (x m : R) :
  0 <= x -> scale_by (Fin x) (Fin m) = Fin (scaled x m).
Proof.
  intros Hx. unfold scale_by, scaled, tiny. cbn [ltb].
  destruct (Rlt_dec (1 / 10000000) m) as [Hm | _]; [| reflexivity].
  cbn [div]. now rewrite sign_pos by lra.
Qed.

Lemma scaled_unit (x m : R) : 0 <= x <= m -> 0 <= scaled x m <= 1.
Proof.
  intros [Hx Hm]. unfold scaled.
  destruct (Rlt_dec (1 / 10000000) m) as [Hbig | Hsmall].
  - assert (Hpos : 0 < m) by lra.
    pose proof (Rinv_0_lt_compat m Hpos) as Hinv.
    unfold Rdiv. split; [nra |].
    rewrite <- (Rinv_r m) by lra. nra.
  - lra.
Qed.

Lemma scaled_row (d : nat) (rs : list (list R)) (r : list R) :
  List.length r = d -> Forall (fun x => 0 <= x) r ->
  List.map (fun j =>
      scale_by (nth (if (d =? 1)%nat then 0%nat else j) (List.map Fin r) (Fin 0))
        (nth (if (d =? 1)%nat then 0%nat else j)
           (List.map (fun j => Fin (column_max rs j)) (seq 0 d)) (Fin 0)))
    (seq 0 d)
  = List.map Fin (List.map (fun j => scaled (nth j r 0) (column_max rs j))
                    (seq 0 d)).
Proof.
  intros Hlen Hpos. rewrite List.map_map.
  apply List.map_ext_in. intros j Hj. apply in_seq in Hj.
  replace (if (d =? 1)%nat then 0%nat else j) with j
    by (destruct (Nat.eqb_spec d 1); lia).
  rewrite (map_nth Fin), (nth_map_seq _ d j (Fin 0)) by lia.
  apply scale_by_Fin.
  rewrite List.Forall_forall in Hpos. apply Hpos. apply nth_In. lia.
Qed.

(** Without standardization, for data whose smallest entry is 0 and whose
    largest entry exceeds 10, the normalizer maps the data it was built
    from into the interval from 0 to 1 and keeps its shape: every entry
    is divided by the largest entry of its feature, or left as it is when
    that largest entry does not exceed [1e-7]. *)
Theorem normalizer_maps_base_into_unit_interval
    (d : nat) (rs : list (list R)) (hi : R) :
  Forall (fun r => List.length r = d) rs ->
  array_min (from_reals d rs) = Returned (Fin 0) ->
  array_max (from_reals d rs) = Returned (Fin hi) ->
  10 < hi ->
  exists normalizer rs',
    _get_normalizer (from_reals d rs) false = Returned normalizer
    /\ normalizer (from_reals d rs) = Returned (from_reals d rs')
    /\ List.map (@List.length R) rs' = List.map (@List.length R) rs
    /\ Forall (Forall (fun y => 0 <= y <= 1)) rs'.
Proof.
  intros Hwf Hmin Hmax Hhi.
  destruct (array_min_nonnegative d rs Hmin) as [Hne Hpos].
  exists (fun u => with_vector scale_by u
                     (List.map (fun j => Fin (column_max rs j)) (seq 0 d))).
  exists (List.map (fun r => List.map (fun j => scaled (nth j r 0) (column_max rs j))
                               (seq 0 d)) rs).
  repeat split.
  - unfold _get_normalizer. rewrite Hmin. cbn [and_then eqb].
    destruct (Req_dec_T 0 0) as [_ | Hn]; [| contradiction].
    rewrite Hmax. cbn [and_then ltb].
    destruct (Rlt_dec 10 hi) as [_ | Hn]; [| contradiction].
    unfold amax_axis0. cbn [from_reals ncols].
    fold (from_reals d rs).
    now rewrite (features_max_from_reals d rs _ Hne).
  - unfold with_vector, from_reals. cbn [ncols rows].
    rewrite length_map, length_seq. unfold UtilRest.broadcast_dim.
    rewrite Nat.eqb_refl. do 2 f_equal.
    rewrite !List.map_map. apply List.map_ext_in. intros r Hr.
    rewrite List.Forall_forall in Hwf, Hpos.
    apply (scaled_row d rs r (Hwf r Hr) (Hpos r Hr)).
  - rewrite List.map_map. apply List.map_ext_in. intros r Hr.
    rewrite length_map, length_seq.
    rewrite List.Forall_forall in Hwf. symmetry. now apply Hwf.
  - apply List.Forall_forall. intros row Hrow.
    apply in_map_iff in Hrow. destruct Hrow as (r & <- & Hr).
    apply List.Forall_forall. intros y Hy.
    apply in_map_iff in Hy. destruct Hy as (j & <- & Hj). apply in_seq in Hj.
    apply scaled_unit. split; [| now apply entry_below_column_max].
    rewrite List.Forall_forall in Hpos, Hwf.
    specialize (Hpos r Hr). rewrite List.Forall_forall in Hpos.
    apply Hpos, nth_In. rewrite (Hwf r Hr). lia.
Qed.

End NormalizerFacts.

Lemma normalizer_maps_base_into_unit_interval_witness :
  exists normalizer rs',
    Normalizer._get_normalizer (from_reals 2 [[0; 20]; [5; 10]]) false
    = PyCore.Returned normalizer
    /\ normalizer (from_reals 2 [[0; 20]; [5; 10]])
       = PyCore.Returned (from_reals 2 rs')
    /\ List.map (@List.length R) rs'
       = List.map (@List.length R) [[0; 20]; [5; 10]]
    /\ Forall (Forall (fun y => 0 <= y <= 1)) rs'.
Proof.
  apply (normalizer_maps_base_into_unit_interval 2 [[0; 20]; [5; 10]] 20).
  - repeat constructor.
  - unfold Normalizer.array_min. cbn. do 2 f_equal.
    unfold Rmin. repeat destruct (Rle_dec _ _); lra.
  - unfold Normalizer.array_max. cbn. do 2 f_equal.
    unfold Rmax. repeat destruct (Rle_dec _ _); lra.
  - lra.
Defined.
